(** * Embedded-ControlHub: the two I2C peers

    A shallow embedding of the actuator board ([Executor.ino], an Arduino UNO)
    and of the sensor hub ([SensorsWeb.ino], an ESP32), and the properties of
    their bus protocol.

    Character buffers are lists of characters of the declared size; the C
    string held by a buffer is what precedes its first NUL.  The [int] of the
    actuator board is 16 bits wide, the [int] and [unsigned long] of the
    sensor hub are 32 bits wide. *)

From Stdlib Require Import Ascii String.
From Stdlib Require Import ZArith List Bool Lia.
From Stdlib Require Import Floats.SpecFloat.
Import ListNotations.

Open Scope Z_scope.

(** ** C strings over character buffers *)

Module CStr.

Definition NUL : ascii := Ascii.zero.

Definition is_nul (c : ascii) : bool := Ascii.eqb c NUL.

(** The literal [s] as the characters of a C string (without its NUL). *)
Definition lit (s : string) : list ascii := list_ascii_of_string s.

(** The text a buffer holds: the characters before the first NUL. *)
Fixpoint cstr (buf : list ascii) : list ascii :=
  match buf with
  | [] => []
  | c :: rest => if is_nul c then [] else c :: cstr rest
  end.

Definition text (buf : list ascii) : string := string_of_list_ascii (cstr buf).

Definition strlen (buf : list ascii) : nat := length (cstr buf).

(** [buf[i] = c].  A store outside the buffer, undefined in C, leaves the
    buffer of the model as it is; [stored_ok] tells whether the index is
    inside. *)
Definition store (buf : list ascii) (i : nat) (c : ascii) : list ascii :=
  if (i <? length buf)%nat then firstn i buf ++ c :: skipn (S i) buf else buf.

Definition stored_ok (buf : list ascii) (i : nat) : bool := (i <? length buf)%nat.

(** Overwrite the beginning of [dst] with [src], the rest of [dst] stays. *)
Definition blit (src dst : list ascii) : list ascii :=
  src ++ skipn (length src) dst.

(** [strcpy(dst, src)]: the text of [src] and its NUL. *)
Definition strcpy (dst src : list ascii) : list ascii :=
  blit (cstr src ++ [NUL]) dst.

(** [strncpy(dst, src, n)]: at most [n] characters of the text of [src],
    padded with NULs up to [n] characters. *)
Definition strncpy (dst src : list ascii) (n : nat) : list ascii :=
  let body := firstn n (cstr src) in
  blit (body ++ repeat NUL (n - length body)) dst.

(** [strncat(dst, src, n)]: at most [n] characters of the text of [src] after
    the text of [dst], then a NUL. *)
Definition strncat (dst src : list ascii) (n : nat) : list ascii :=
  blit (cstr dst ++ firstn n (cstr src) ++ [NUL]) dst.

(** [strcmp(a, b) == 0] *)
Fixpoint strcmp0 (a b : list ascii) : bool :=
  match a, b with
  | x :: a', y :: b' =>
      if Ascii.eqb x y then (if is_nul x then true else strcmp0 a' b') else false
  | [], [] => true
  | [], y :: _ => is_nul y
  | x :: _, [] => is_nul x
  end.

(** [strncmp(a, b, n) == 0] *)
Fixpoint strncmp0 (a b : list ascii) (n : nat) {struct n} : bool :=
  match n with
  | O => true
  | S n' =>
      match a, b with
      | x :: a', y :: b' =>
          if Ascii.eqb x y then (if is_nul x then true else strncmp0 a' b' n')
          else false
      | [], [] => true
      | [], y :: _ => is_nul y
      | x :: _, [] => is_nul x
      end
  end.

(** [snprintf(buf, size, ...)] once the format is expanded to [txt]: at most
    [size - 1] characters and a NUL. *)
Definition snprintf (buf : list ascii) (size : nat) (txt : list ascii) : list ascii :=
  match size with
  | O => buf
  | S m => blit (firstn m txt ++ [NUL]) buf
  end.

(** [memset(buf, 0, n)] *)
Definition memset0 (buf : list ascii) (n : nat) : list ascii :=
  blit (repeat NUL n) buf.

(** No character of [l] is NUL. *)
Definition no_nul (l : list ascii) : bool := forallb (fun c => negb (is_nul c)) l.

End CStr.

(** ** Decimal text of integers: [%d] and [atoi] *)

Module Dec.

Definition digit_char (d : Z) : ascii := ascii_of_nat (48 + Z.to_nat d).

Definition digit_val (c : ascii) : Z := Z.of_nat (nat_of_ascii c) - 48.

Definition is_digit (c : ascii) : bool :=
  (0 <=? digit_val c) && (digit_val c <=? 9).

(** The digits of [n >= 0], most significant first, in front of [acc]. *)
Fixpoint digits (fuel : nat) (n : Z) (acc : list ascii) : list ascii :=
  match fuel with
  | O => acc
  | S f =>
      let acc' := digit_char (n mod 10) :: acc in
      if n <? 10 then acc' else digits f (n / 10) acc'
  end.

Definition fuel_of (n : Z) : nat := S (Z.to_nat (Z.log2 n)).

(** What [%d] prints. *)
Definition dec (n : Z) : list ascii :=
  if n <? 0 then "-"%char :: digits (fuel_of (- n)) (- n) []
  else digits (fuel_of n) n [].

(** [isspace] in the C locale. *)
Definition is_space (c : ascii) : bool :=
  let k := nat_of_ascii c in
  (k =? 32)%nat || ((9 <=? k)%nat && (k <=? 13)%nat).

Fixpoint skip_spaces (p : list ascii) : list ascii :=
  match p with
  | c :: rest => if is_space c then skip_spaces rest else p
  | [] => []
  end.

(** The value of the leading digits of [p], starting from [acc]. *)
Fixpoint accum (p : list ascii) (acc : Z) : Z :=
  match p with
  | c :: rest => if is_digit c then accum rest (acc * 10 + digit_val c) else acc
  | [] => acc
  end.

(** The integer a text starts with, before it is brought into an [int]:
    blanks, an optional sign, digits. *)
Definition parse (p : list ascii) : Z :=
  match skip_spaces p with
  | c :: rest =>
      if Ascii.eqb c "-" then - accum rest 0
      else if Ascii.eqb c "+" then accum rest 0
      else accum (c :: rest) 0
  | [] => 0
  end.

(** The text stops here for [atoi]: it ends, or goes on with no digit. *)
Definition stops (rest : list ascii) : bool :=
  match rest with
  | [] => true
  | c :: _ => negb (is_digit c)
  end.

(** The text does not start like a number for [atoi]: it is empty or starts
    with a character that is no digit, no blank and no sign. *)
Definition not_number (t : list ascii) : bool :=
  match t with
  | [] => true
  | c :: _ =>
      negb (is_digit c || is_space c || Ascii.eqb c "-" || Ascii.eqb c "+")
  end.

End Dec.

(** ** The actuator board, [Executor.ino] *)

Module Executor.
Import CStr.

Definition I2C_BUF : nat := 32.

(** [int] on the board (an ATmega328P): 16 bits, two's complement. *)
Definition INT_MIN : Z := -32768.
Definition INT_MAX : Z := 32767.

(** The [int] with the low 16 bits of [z]. *)
Definition to_int (z : Z) : Z := (z + 32768) mod 65536 - 32768.

(** [atoi] as the board's C library computes it: the digits are summed up
    in an [int] with no check for overflow, so a number beyond the [int]
    comes out modulo 2^16. *)
Definition atoi (p : list ascii) : Z := to_int (Dec.parse p).

(** The [constrain(amt, low, high)] macro. *)
Definition constrain (amt low high : Z) : Z :=
  if amt <? low then low else if amt >? high then high else amt.

(** The globals of the sketch, the [static] of [handleButton], and what the
    sketch last wrote to its devices. *)
Record state := mkState {
  cmdReady   : bool;
  i2cCmd     : list ascii;
  i2cResp    : list ascii;
  servoPos   : Z;
  stepperPos : Z;
  relayState : bool;
  btnEvent   : bool;
  lastState  : bool;      (* HIGH is [true] *)
  servoOut   : Z;         (* angle of the last [servo.write] *)
  relayPin   : bool;      (* level of the last [digitalWrite(RELAY_PIN, _)] *)
  shaft      : Z          (* steps given to [stepper.step], summed *)
}.

Definition set_resp (s : state) (r : list ascii) : state :=
  mkState (cmdReady s) (i2cCmd s) r (servoPos s) (stepperPos s)
          (relayState s) (btnEvent s) (lastState s) (servoOut s) (relayPin s)
          (shaft s).

Definition set_servo (s : state) (pos : Z) : state :=
  mkState (cmdReady s) (i2cCmd s) (i2cResp s) pos (stepperPos s)
          (relayState s) (btnEvent s) (lastState s) pos (relayPin s) (shaft s).

Definition move_stepper (s : state) (steps : Z) : state :=
  mkState (cmdReady s) (i2cCmd s) (i2cResp s) (servoPos s)
          (to_int (stepperPos s + steps))
          (relayState s) (btnEvent s) (lastState s) (servoOut s) (relayPin s)
          (shaft s + steps).

Definition set_relay (s : state) (on : bool) : state :=
  mkState (cmdReady s) (i2cCmd s) (i2cResp s) (servoPos s) (stepperPos s)
          on (btnEvent s) (lastState s) (servoOut s) on (shaft s).

Definition set_cmd (s : state) (ready : bool) (buf : list ascii) : state :=
  mkState ready buf (i2cResp s) (servoPos s) (stepperPos s)
          (relayState s) (btnEvent s) (lastState s) (servoOut s) (relayPin s)
          (shaft s).

Definition set_ready (s : state) (ready : bool) : state :=
  set_cmd s ready (i2cCmd s).

Definition set_button (s : state) (ev last : bool) : state :=
  mkState (cmdReady s) (i2cCmd s) (i2cResp s) (servoPos s) (stepperPos s)
          (relayState s) ev last (servoOut s) (relayPin s) (shaft s).

(** The initialisers of the globals, then [setup]. *)
Definition globals : state :=
  mkState false (repeat NUL I2C_BUF)
          (blit (lit "READY") (repeat NUL I2C_BUF))
          90 0 false false true 0 false 0.

Definition setup (s : state) : state :=
  mkState (cmdReady s) (i2cCmd s) (i2cResp s) (servoPos s) (stepperPos s)
          (relayState s) (btnEvent s) (lastState s) (servoPos s) false (shaft s).

Definition initial : state := setup globals.

(** [onI2CReceive]: the loop over the bytes the bus delivered.  The result is
    the index reached, the buffer, and whether every store so far was inside
    the buffer. *)
Fixpoint recv_loop (rx : list ascii) (i : nat) (buf : list ascii) (ok : bool)
  : nat * list ascii * bool :=
  match rx with
  | c :: rx' =>
      if (i <? I2C_BUF - 1)%nat
      then recv_loop rx' (S i) (store buf i c) (ok && stored_ok buf i)
      else (i, buf, ok)
  | [] => (i, buf, ok)
  end.

Definition recv_buf (rx buf : list ascii) : nat * list ascii * bool :=
  let '(i, b, ok) := recv_loop rx 0 buf true in
  (i, store b i NUL, ok && stored_ok b i).

Definition onI2CReceive (rx : list ascii) (s : state) : state :=
  let '(_, b, _) := recv_buf rx (i2cCmd s) in
  set_cmd s true b.

(** The text of the [STATUS] answer before [snprintf] cuts it. *)
Definition status_text (servo : Z) (relay : bool) (stepper : Z) : list ascii :=
  lit "SERVO=" ++ Dec.dec servo ++ lit " RELAY="
    ++ lit (if relay then "ON" else "OFF")
    ++ lit " STEPPER=" ++ Dec.dec stepper.

(** [handleCommand] *)
Definition handleCommand (s : state) : state :=
  if strncmp0 (i2cCmd s) (lit "SERVO SET") 9 then
    let s1 := set_servo s (constrain (atoi (skipn 10 (i2cCmd s))) 0 180) in
    set_resp s1 (strcpy (i2cResp s1) (lit "OK SERVO"))
  else if strncmp0 (i2cCmd s) (lit "STEPPER MOVE") 12 then
    let s1 := set_resp s (strcpy (i2cResp s) (lit "STEPPER BUSY")) in
    let steps := atoi (skipn 13 (i2cCmd s1)) in
    let s2 := move_stepper s1 steps in
    set_resp s2 (strcpy (i2cResp s2) (lit "OK STEPPER"))
  else if strcmp0 (i2cCmd s) (lit "RELAY ON") then
    let s1 := set_relay s true in
    set_resp s1 (strcpy (i2cResp s1) (lit "OK RELAY ON"))
  else if strcmp0 (i2cCmd s) (lit "RELAY OFF") then
    let s1 := set_relay s false in
    set_resp s1 (strcpy (i2cResp s1) (lit "OK RELAY OFF"))
  else if strcmp0 (i2cCmd s) (lit "STATUS") then
    set_resp s (snprintf (i2cResp s) I2C_BUF
                  (status_text (servoPos s) (relayState s) (stepperPos s)))
  else
    set_resp s (strcpy (i2cResp s) (lit "ERR CMD")).

(** [handleButton]; [pin] is what [digitalRead(BUTTON_PIN)] returns. *)
Definition handleButton (pin : bool) (s : state) : state :=
  set_button s
    (if lastState s && negb pin then true else btnEvent s)
    pin.

(** One turn of [loop]. *)
Definition loop (pin : bool) (s : state) : state :=
  handleButton pin
    (if cmdReady s then handleCommand (set_ready s false) else s).

Definition BTN_MARK : list ascii := lit " +BTN PRESSED".

(** [onI2CRequest]: the bytes given to [Wire.write] and the state after.
    Every byte of the local [tmpResp] is written before it is read. *)
Definition onI2CRequest (s : state) : list ascii * state :=
  let tmp0 := strncpy (repeat NUL I2C_BUF) (i2cResp s) (I2C_BUF - 1) in
  let tmp1 := store tmp0 (I2C_BUF - 1) NUL in
  let tmp2 := if btnEvent s
              then strncat tmp1 BTN_MARK (I2C_BUF - strlen tmp1 - 1)
              else tmp1 in
  (firstn (strlen tmp2 + 1) tmp2,
   if btnEvent s then set_button s false (lastState s) else s).

(** The text of the frame [onI2CRequest] writes: the response, and the
    marker cut to what is left of 31 characters when the event is pending. *)
Definition req_text (s : state) : list ascii :=
  let body := firstn (I2C_BUF - 1) (cstr (i2cResp s)) in
  body ++ (if btnEvent s
           then firstn (I2C_BUF - 1 - length body) BTN_MARK
           else []).

(** The text of the command buffer, and the two ways [handleCommand]
    compares it with a verb. *)
Definition cmd_chars (s : state) : list ascii := cstr (i2cCmd s).

Definition starts_with (verb : string) (c : list ascii) : Prop :=
  firstn (length (lit verb)) c = lit verb.

Definition is_verb (verb : string) (c : list ascii) : Prop := c = lit verb.

(** A command of the master handled to its end: its bytes received, then
    taken up by [loop]'s call of [handleCommand]. *)
Definition exec (cmd : list ascii) (s : state) : state :=
  handleCommand (set_ready (onI2CReceive cmd s) false).

Definition resp_text (s : state) : string := text (i2cResp s).

(** The bytes of the command [SERVO SET <n>]. *)
Definition servo_set (n : Z) : list ascii := lit "SERVO SET " ++ Dec.dec n.

(** What can happen to the board, and what the master reads. *)
Inductive event :=
| Receive (rx : list ascii)
| Request
| Loop (pin : bool).

Definition step (e : event) (s : state) : list (list ascii) * state :=
  match e with
  | Receive rx => ([], onI2CReceive rx s)
  | Request => let '(f, s') := onI2CRequest s in ([f], s')
  | Loop pin => ([], loop pin s)
  end.

Fixpoint run (es : list event) (s : state) : list (list ascii) * state :=
  match es with
  | [] => ([], s)
  | e :: es' =>
      let '(out, s1) := step e s in
      let '(out', s2) := run es' s1 in
      (out ++ out', s2)
  end.

(** The buffers have their declared size. *)
Definition wf (s : state) : Prop :=
  length (i2cCmd s) = I2C_BUF /\ length (i2cResp s) = I2C_BUF.

(** [s0] differs from [s] in the command buffer and [cmdReady] at most. *)
Definition same_but_cmd (s0 s : state) : Prop :=
  i2cResp s0 = i2cResp s /\ servoPos s0 = servoPos s
  /\ stepperPos s0 = stepperPos s /\ relayState s0 = relayState s
  /\ btnEvent s0 = btnEvent s /\ lastState s0 = lastState s
  /\ servoOut s0 = servoOut s /\ relayPin s0 = relayPin s
  /\ shaft s0 = shaft s.

(** The bytes of the command [STEPPER MOVE <n>]. *)
Definition stepper_move (n : Z) : list ascii := lit "STEPPER MOVE " ++ Dec.dec n.

(** Turns of [loop], one for each reading of the button. *)
Definition loops (pins : list bool) (s : state) : state :=
  fold_left (fun st pin => loop pin st) pins s.

(** Calls of [handleButton], one for each reading of the button. *)
Definition buttons (pins : list bool) (s : state) : state :=
  fold_left (fun st pin => handleButton pin st) pins s.

(** Among the readings [pins], taken after the reading [prev], a HIGH one is
    followed by a LOW one. *)
Fixpoint falling (prev : bool) (pins : list bool) : bool :=
  match pins with
  | [] => false
  | p :: rest => (prev && negb p) || falling p rest
  end.

(** No character of [l] is a plus sign. *)
Definition no_plus (l : list ascii) : bool :=
  forallb (fun c => negb (Ascii.eqb c "+")) l.

(** What holds of the board whatever it has been sent. *)
Definition inv (s : state) : Prop :=
  wf s
  /\ 0 <= servoPos s <= 180
  /\ servoOut s = servoPos s
  /\ relayPin s = relayState s
  /\ INT_MIN <= stepperPos s <= INT_MAX
  /\ (strlen (i2cResp s) <= 31)%nat
  /\ no_plus (cstr (i2cResp s)) = true
  /\ nth_error (i2cCmd s) 31 = Some NUL.


(** "Matches a known verb" as the spec words it (tokens delimited by
    blanks, the verb matched as exact strings): the words of the command
    begin with the words of one of the five verbs.  This reading is the
    spec's, not [handleCommand]'s. *)
Fixpoint spec_words_from (cur l : list ascii) : list (list ascii) :=
  match l with
  | [] => match cur with
          | [] => []
          | _ :: _ => [rev cur]
          end
  | c :: rest =>
      if Dec.is_space c
      then match cur with
           | [] => spec_words_from [] rest
           | _ :: _ => rev cur :: spec_words_from [] rest
           end
      else spec_words_from (c :: cur) rest
  end.

Definition spec_words (l : list ascii) : list (list ascii) :=
  spec_words_from [] l.

Definition word_eqb (a b : list ascii) : bool :=
  String.eqb (string_of_list_ascii a) (string_of_list_ascii b).

Fixpoint begins_with_words (v ws : list (list ascii)) : bool :=
  match v, ws with
  | [], _ => true
  | a :: v', b :: ws' => word_eqb a b && begins_with_words v' ws'
  | _ :: _, [] => false
  end.

Definition KNOWN_VERBS : list string :=
  ["SERVO SET"; "STEPPER MOVE"; "RELAY ON"; "RELAY OFF"; "STATUS"]%string.

Definition spec_matches_known_verb (c : list ascii) : bool :=
  existsb (fun v => begins_with_words (spec_words (lit v)) (spec_words c))
          KNOWN_VERBS.

End Executor.

(** ** The sensor hub, [SensorsWeb.ino] *)

Module SensorHub.
Import CStr.

Definition I2C_BUF : nat := 32.

(** [unsigned long] and [int] on the ESP32: 32 bits. *)
Definition to_ulong (z : Z) : Z := z mod 2 ^ 32.
Definition to_int (z : Z) : Z := (z + 2 ^ 31) mod 2 ^ 32 - 2 ^ 31.

(** [struct SensorData]; a [float] is an IEEE 754 value. *)
Record SensorData := mkData {
  temp       : spec_float;
  hum        : spec_float;
  photo      : Z;
  lastClapMs : Z
}.

Definition isnan (f : spec_float) : bool :=
  match f with
  | S754_nan => true
  | _ => false
  end.

(** One turn of the loop of [SensorTask]; [h], [t] and [p] are what
    [readHumidity], [readTemperature] and [analogRead] returned. *)
Definition SensorTask (h t : spec_float) (p : Z) (data : SensorData) : SensorData :=
  if negb (isnan h) && negb (isnan t)
  then mkData t h p (lastClapMs data)
  else data.

(** One turn of the loop of [SoundTask]; [mic_low] is
    [digitalRead(MIC_PIN) == LOW], [now] is what the calls of [millis()] in
    this turn return.  The result is the shared data and [last_event]. *)
Definition SoundTask (mic_low : bool) (now : Z) (st : SensorData * Z)
  : SensorData * Z :=
  let '(data, last_event) := st in
  if mic_low && (to_ulong (now - last_event) >? 250)
  then (mkData (temp data) (hum data) (photo data) now, now)
  else st.

(** The [clapSec] of [onI2CRequest]. *)
Definition clapSec (now : Z) (data : SensorData) : Z :=
  if lastClapMs data >? 0 then
    let c := to_int (to_ulong (now - lastClapMs data) / 1000) in
    if c >=? 1000 then -1 else c
  else -1.

Section Reply.

(** What [%.1f] prints for a [float]; the C library's rendering is not part
    of the sketch. *)
Variable fmt_f1 : spec_float -> list ascii.

Definition reply_text (data : SensorData) (c : Z) : list ascii :=
  lit "T=" ++ fmt_f1 (temp data) ++ lit " H=" ++ fmt_f1 (hum data)
    ++ lit " P=" ++ Dec.dec (photo data) ++ lit " C=" ++ Dec.dec c.

(** [onI2CRequest]: the bytes given to [Wire.write] and the response buffer
    after. *)
Definition onI2CRequest (now : Z) (data : SensorData) (i2cResp : list ascii)
  : list ascii * list ascii :=
  let c := clapSec now data in
  let r0 := memset0 i2cResp I2C_BUF in
  let r1 := snprintf r0 I2C_BUF (reply_text data c) in
  (firstn I2C_BUF r1, r1).

End Reply.

(** A rendering for [fmt_f1]: the value rounded to the nearest tenth, ties to
    even, as a correctly rounding [printf] prints it. *)
Definition tenths (m : positive) (e : Z) : Z :=
  if 0 <=? e then Z.pos m * 2 ^ e * 10
  else
    let num := Z.pos m * 10 in
    let den := 2 ^ (- e) in
    let q := num / den in
    let r := num mod den in
    if (den <? 2 * r) || ((den =? 2 * r) && Z.odd q) then q + 1 else q.

Definition print_f1 (f : spec_float) : list ascii :=
  match f with
  | S754_zero s => (if s then lit "-" else []) ++ lit "0.0"
  | S754_infinity s => (if s then lit "-" else []) ++ lit "inf"
  | S754_nan => lit "nan"
  | S754_finite s m e =>
      let t := tenths m e in
      (if s then lit "-" else []) ++ Dec.dec (t / 10) ++ lit "."
        ++ Dec.dec (t mod 10)
  end.

(** The text of a frame and its padding. *)
Definition padded (t : list ascii) : list ascii :=
  t ++ repeat NUL (I2C_BUF - length t).

(** Readings for the examples: 23.5 degrees, 45 percent, light 1023, last
    clap at 1 s. *)
Definition sample_data : SensorData :=
  mkData (S754_finite false 47 (-1)) (S754_finite false 45 0) 1023 1000.

(** The shared data as the zero-initialised global has them. *)
Definition data0 : SensorData :=
  mkData (S754_zero false) (S754_zero false) 0 0.

(** One turn of the loop of [SoundTask] with the three calls of [millis()]
    told apart: [t1] in the test, [t2] stored in [lastClapMs], [t3] stored
    in [last_event]. *)
Definition SoundTask_at (mic_low : bool) (t1 t2 t3 : Z) (st : SensorData * Z)
  : SensorData * Z :=
  let '(data, last_event) := st in
  if mic_low && (to_ulong (t1 - last_event) >? 250)
  then (mkData (temp data) (hum data) (photo data) t2, t3)
  else st.

(** The turns of the two tasks that write the shared data, in the order the
    mutex lets them in. *)
Inductive turn :=
| Sense (h t : spec_float) (p : Z)
| Sound (mic_low : bool) (t1 t2 t3 : Z).

Definition hub_step (st : SensorData * Z) (e : turn) : SensorData * Z :=
  match e with
  | Sense h t p => (SensorTask h t p (fst st), snd st)
  | Sound mic_low t1 t2 t3 => SoundTask_at mic_low t1 t2 t3 st
  end.

Definition hub_run (es : list turn) (st : SensorData * Z) : SensorData * Z :=
  fold_left hub_step es st.

End SensorHub.

(** * Properties *)

(** ** Facts about C strings *)

Module CStrFacts.
Import CStr.

Lemma no_nul_app l1 l2 : no_nul (l1 ++ l2) = no_nul l1 && no_nul l2.
Proof. apply forallb_app. Qed.

Lemma no_nul_firstn n l : no_nul l = true -> no_nul (firstn n l) = true.
Proof.
  revert n; induction l as [|c l IH]; intros [|n] H; simpl in *; trivial.
  apply andb_true_iff in H as [Hc Hl].
  now rewrite Hc, IH.
Qed.

Lemma cstr_app_nul l rest : no_nul l = true -> cstr (l ++ NUL :: rest) = l.
Proof.
  induction l as [|c l IH]; simpl; intros H.
  - reflexivity.
  - apply andb_true_iff in H as [Hc Hl].
    apply negb_true_iff in Hc. rewrite Hc. now rewrite IH.
Qed.

Lemma cstr_no_nul l : no_nul l = true -> cstr l = l.
Proof.
  induction l as [|c l IH]; simpl; intros H; trivial.
  apply andb_true_iff in H as [Hc Hl].
  apply negb_true_iff in Hc. rewrite Hc. now rewrite IH.
Qed.

Lemma no_nul_cstr buf : no_nul (cstr buf) = true.
Proof.
  induction buf as [|c buf IH]; simpl; trivial.
  destruct (is_nul c) eqn:E; simpl; trivial.
  now rewrite E, IH.
Qed.

Lemma cstr_length_le buf : (length (cstr buf) <= length buf)%nat.
Proof.
  induction buf as [|c buf IH]; simpl; trivial.
  destruct (is_nul c); simpl; lia.
Qed.

Lemma cstr_idem buf : cstr (cstr buf) = cstr buf.
Proof. apply cstr_no_nul, no_nul_cstr. Qed.

Lemma text_app_nul l rest :
  no_nul l = true -> text (l ++ NUL :: rest) = string_of_list_ascii l.
Proof. intros H. unfold text. now rewrite cstr_app_nul. Qed.

Lemma text_lit_nul s rest :
  no_nul (lit s) = true -> text (lit s ++ NUL :: rest) = s.
Proof.
  intros H. rewrite text_app_nul by assumption.
  apply string_of_list_ascii_of_string.
Qed.

Lemma blit_length src dst :
  (length src <= length dst)%nat -> length (blit src dst) = length dst.
Proof.
  intros H. unfold blit. rewrite length_app, length_skipn. lia.
Qed.

Lemma blit_app_cons l c dst :
  blit (l ++ [c]) dst = l ++ c :: skipn (S (length l)) dst.
Proof.
  unfold blit. rewrite <- app_assoc. simpl.
  rewrite length_app. simpl. now rewrite Nat.add_1_r.
Qed.

(** What the string functions leave as the text of the buffer. *)
Lemma cstr_strcpy dst src : cstr (strcpy dst src) = cstr src.
Proof.
  unfold strcpy. rewrite blit_app_cons.
  apply cstr_app_nul, no_nul_cstr.
Qed.

Lemma cstr_snprintf buf m txt :
  no_nul txt = true -> cstr (snprintf buf (S m) txt) = firstn m txt.
Proof.
  intros H. unfold snprintf. rewrite blit_app_cons.
  apply cstr_app_nul, no_nul_firstn, H.
Qed.

Lemma strcpy_length dst src :
  (length (cstr src) < length dst)%nat -> length (strcpy dst src) = length dst.
Proof.
  intros H. unfold strcpy. apply blit_length.
  rewrite length_app. simpl. lia.
Qed.

Lemma snprintf_length buf size txt :
  (size <= length buf)%nat -> length (snprintf buf size txt) = length buf.
Proof.
  intros H. destruct size as [|m]; simpl; trivial.
  apply blit_length. rewrite length_app, length_firstn. simpl. lia.
Qed.

(** The comparisons against a literal, read on the text of the buffer. *)
Lemma strncmp0_prefix p : no_nul p = true ->
  forall a, strncmp0 a p (length p) = true <-> firstn (length p) (cstr a) = p.
Proof.
  induction p as [|y p IH]; intros Hp a; simpl.
  - split; reflexivity.
  - apply andb_true_iff in Hp as [Hy Hp].
    apply negb_true_iff in Hy.
    destruct a as [|x a]; simpl.
    + rewrite Hy. split; discriminate.
    + destruct (Ascii.eqb_spec x y) as [->|Hxy].
      * rewrite Hy. simpl. rewrite (IH Hp a).
        split; [intros ->; reflexivity | intros H; now injection H].
      * split; [discriminate|].
        destruct (is_nul x); simpl; [discriminate|].
        intros H; injection H; intros; contradiction.
Qed.

Lemma strcmp0_text p : no_nul p = true ->
  forall a, strcmp0 a p = true <-> cstr a = p.
Proof.
  induction p as [|y p IH]; intros Hp a.
  - destruct a as [|x a]; simpl; [split; reflexivity|].
    destruct (is_nul x); split; congruence.
  - simpl in Hp. apply andb_true_iff in Hp as [Hy Hp].
    apply negb_true_iff in Hy.
    destruct a as [|x a]; simpl.
    + rewrite Hy. split; discriminate.
    + destruct (Ascii.eqb_spec x y) as [->|Hxy].
      * rewrite Hy. rewrite (IH Hp a).
        split; [intros ->; reflexivity | intros H; now injection H].
      * split; [discriminate|].
        destruct (is_nul x); [discriminate|].
        intros H; injection H; intros; contradiction.
Qed.

End CStrFacts.

(** ** Facts about decimal text *)

Module DecFacts.
Import CStr CStrFacts Dec.

#[local] Arguments digit_char : simpl never.
#[local] Arguments digit_val : simpl never.
#[local] Arguments is_digit : simpl never.
#[local] Arguments is_space : simpl never.

Ltac digit_cases d :=
  let H := fresh "Hd" in
  assert (H : d = 0 \/ d = 1 \/ d = 2 \/ d = 3 \/ d = 4 \/ d = 5 \/ d = 6
              \/ d = 7 \/ d = 8 \/ d = 9) by lia;
  repeat (destruct H as [H|H]; [subst d; try reflexivity |]);
  try subst d; try reflexivity.

Lemma digit_val_char d : 0 <= d <= 9 -> digit_val (digit_char d) = d.
Proof. intros H. digit_cases d. Qed.

Lemma is_digit_char d : 0 <= d <= 9 -> is_digit (digit_char d) = true.
Proof. intros H. digit_cases d. Qed.

Lemma digit_char_plain d : 0 <= d <= 9 ->
  is_space (digit_char d) = false
  /\ Ascii.eqb (digit_char d) "-" = false
  /\ Ascii.eqb (digit_char d) "+" = false.
Proof. intros H. digit_cases d; repeat split. Qed.

Lemma is_digit_not_nul c : is_digit c = true -> is_nul c = false.
Proof.
  intros H. destruct (is_nul c) eqn:E; trivial.
  apply Ascii.eqb_eq in E. subst c. discriminate H.
Qed.

Lemma digits_no_nul l : forallb is_digit l = true -> no_nul l = true.
Proof.
  induction l as [|c l IH]; simpl; trivial.
  intros H. apply andb_true_iff in H as [Hc Hl].
  now rewrite (is_digit_not_nul c Hc), IH.
Qed.

Lemma mod10_digit n : 0 <= n mod 10 <= 9.
Proof. pose proof (Z.mod_pos_bound n 10); lia. Qed.

Lemma digits_acc f : forall n acc, digits f n acc = digits f n [] ++ acc.
Proof.
  induction f as [|f IH]; intros n acc; simpl; trivial.
  destruct (n <? 10); trivial.
  rewrite (IH _ (_ :: acc)), (IH _ [_]).
  now rewrite <- app_assoc.
Qed.

Lemma digits_all f : forall n, forallb is_digit (digits f n []) = true.
Proof.
  induction f as [|f IH]; intros n; cbn [digits]; trivial.
  destruct (n <? 10).
  - cbn [forallb]. now rewrite is_digit_char by apply mod10_digit.
  - rewrite digits_acc, forallb_app, IH. cbn [forallb].
    now rewrite is_digit_char by apply mod10_digit.
Qed.

Lemma digits_head f n acc :
  exists d tl, 0 <= d <= 9 /\ digits (S f) n acc = digit_char d :: tl.
Proof.
  revert n acc; induction f as [|f IH]; intros n acc.
  - simpl. exists (n mod 10), acc. split; [apply mod10_digit|].
    now destruct (n <? 10).
  - change (digits (S (S f)) n acc)
      with (if n <? 10 then digit_char (n mod 10) :: acc
            else digits (S f) (n / 10) (digit_char (n mod 10) :: acc)).
    destruct (n <? 10).
    + exists (n mod 10), acc. split; [apply mod10_digit | reflexivity].
    + apply IH.
Qed.

Lemma digits_length f : forall n acc (k : nat),
  0 <= n < 10 ^ Z.of_nat (S k) ->
  (length (digits f n acc) <= S k + length acc)%nat.
Proof.
  induction f as [|f IH]; intros n acc k H; cbn [digits].
  - lia.
  - destruct (Z.ltb_spec n 10) as [Hlt|Hge].
    + cbn [length]. lia.
    + destruct k as [|k].
      * change (10 ^ Z.of_nat 1) with 10 in H. lia.
      * assert (Hq : 0 <= n / 10 < 10 ^ Z.of_nat (S k)).
        { split; [apply Z.div_pos; lia|].
          apply Z.div_lt_upper_bound; [lia|].
          rewrite <- Z.pow_succ_r by lia.
          rewrite <- Nat2Z.inj_succ. apply H. }
        specialize (IH (n / 10) (digit_char (n mod 10) :: acc) k Hq).
        cbn [length] in IH. lia.
Qed.

Lemma accum_app ds : forall rest a,
  forallb is_digit ds = true -> stops rest = true ->
  accum (ds ++ rest) a = accum ds a.
Proof.
  induction ds as [|c ds IH]; intros rest a Hds Hrest;
    cbn [app accum forallb] in *.
  - destruct rest as [|c rest]; trivial.
    cbn [stops accum] in *. apply negb_true_iff in Hrest. now rewrite Hrest.
  - apply andb_true_iff in Hds as [Hc Hds]. rewrite Hc. now apply IH.
Qed.

Lemma accum_snoc ds : forall c a,
  forallb is_digit ds = true -> is_digit c = true ->
  accum (ds ++ [c]) a = accum ds a * 10 + digit_val c.
Proof.
  induction ds as [|x ds IH]; intros c a Hds Hc;
    cbn [app accum forallb] in *.
  - now rewrite Hc.
  - apply andb_true_iff in Hds as [Hx Hds]. rewrite Hx. now apply IH.
Qed.

(** Reading back the digits: enough fuel gives the number. *)
Lemma accum_digits f : forall n,
  0 <= n < 2 ^ Z.of_nat f -> accum (digits f n []) 0 = n.
Proof.
  induction f as [|f IH]; intros n H.
  - change (2 ^ Z.of_nat 0) with 1 in H. assert (n = 0) by lia. now subst.
  - cbn [digits]. destruct (Z.ltb_spec n 10) as [Hlt|Hge].
    + cbn [accum]. rewrite is_digit_char by apply mod10_digit.
      rewrite digit_val_char by apply mod10_digit.
      rewrite Z.mod_small; lia.
    + rewrite digits_acc.
      rewrite accum_snoc;
        [| apply digits_all | apply is_digit_char, mod10_digit].
      rewrite digit_val_char by apply mod10_digit.
      rewrite IH.
      * pose proof (Z.div_mod n 10). lia.
      * rewrite Nat2Z.inj_succ, Z.pow_succ_r in H by lia.
        split; [apply Z.div_pos; lia|].
        apply Z.div_lt_upper_bound; lia.
Qed.

Lemma fuel_enough n : 0 <= n -> 0 <= n < 2 ^ Z.of_nat (fuel_of n).
Proof.
  intros H. split; trivial. unfold fuel_of.
  rewrite Nat2Z.inj_succ, Z2Nat.id by apply Z.log2_nonneg.
  destruct (Z.eq_dec n 0) as [->|Hn]; [reflexivity|].
  apply Z.log2_spec. lia.
Qed.

Lemma dec_no_nul n : no_nul (dec n) = true.
Proof.
  unfold dec. destruct (n <? 0).
  - change (no_nul ("-"%char :: ?l)) with (no_nul l).
    apply digits_no_nul, digits_all.
  - apply digits_no_nul, digits_all.
Qed.

(** [atoi] reads back what [%d] printed. *)
Lemma parse_dec n rest : stops rest = true -> parse (dec n ++ rest) = n.
Proof.
  intros Hrest. unfold dec, parse.
  destruct (Z.ltb_spec n 0) as [Hneg|Hpos].
  - change (skip_spaces (("-"%char :: ?l) ++ rest)) with ("-"%char :: l ++ rest).
    cbv iota beta. rewrite Ascii.eqb_refl.
    rewrite accum_app by (trivial; apply digits_all).
    rewrite accum_digits by (apply fuel_enough; lia). lia.
  - destruct (digits_head (Z.to_nat (Z.log2 n)) n []) as (d & tl & Hd & E).
    pose proof (accum_digits (fuel_of n) n (fuel_enough n Hpos)) as Hacc.
    pose proof (digits_all (fuel_of n) n) as Hall.
    unfold fuel_of in *. rewrite E in *.
    destruct (digit_char_plain d Hd) as (Hs & Hm & Hp).
    cbn [app skip_spaces]. rewrite Hs, Hm, Hp.
    change (digit_char d :: tl ++ rest) with ((digit_char d :: tl) ++ rest).
    now rewrite accum_app.
Qed.

Lemma dec_length n (k : nat) :
  0 <= n < 10 ^ Z.of_nat (S k) -> (length (dec n) <= S k)%nat.
Proof.
  intros H. unfold dec.
  destruct (Z.ltb_spec n 0); [lia|].
  pose proof (digits_length (fuel_of n) n [] k H) as L.
  cbn [length] in L. lia.
Qed.

Lemma dec_length_neg n (k : nat) :
  - 10 ^ Z.of_nat (S k) < n < 0 -> (length (dec n) <= S (S k))%nat.
Proof.
  intros H. unfold dec.
  destruct (Z.ltb_spec n 0); [|lia].
  assert (H' : 0 <= - n < 10 ^ Z.of_nat (S k)) by lia.
  pose proof (digits_length (fuel_of (- n)) (- n) [] k H') as L.
  cbn [length] in *. lia.
Qed.

Lemma dec_not_nil n : dec n <> [].
Proof.
  unfold dec. destruct (n <? 0); [discriminate|].
  destruct (digits_head (Z.to_nat (Z.log2 n)) n []) as (d & tl & _ & E).
  unfold fuel_of. rewrite E. discriminate.
Qed.

End DecFacts.

(** ** The actuator board: receiving and handling a command *)

Module ExecutorFacts.
Import CStr CStrFacts Dec DecFacts Executor.

Lemma store_inside buf i c :
  (i < length buf)%nat -> store buf i c = firstn i buf ++ c :: skipn (S i) buf.
Proof.
  intros H. unfold store.
  destruct (Nat.ltb_spec i (length buf)); [reflexivity | lia].
Qed.

Lemma store_length buf i c : length (store buf i c) = length buf.
Proof.
  unfold store. destruct (Nat.ltb_spec i (length buf)); trivial.
  rewrite length_app. cbn [length]. rewrite length_firstn, length_skipn. lia.
Qed.

Lemma firstn_store buf i c :
  (i < length buf)%nat -> firstn (S i) (store buf i c) = firstn i buf ++ [c].
Proof.
  intros H. rewrite store_inside by assumption.
  rewrite firstn_app, length_firstn.
  replace (S i - Nat.min i (length buf))%nat with 1%nat by lia.
  rewrite firstn_all2 by (rewrite length_firstn; lia).
  reflexivity.
Qed.

Lemma skipn_store buf i c j :
  (i < j)%nat -> skipn j (store buf i c) = skipn j buf.
Proof.
  intros H. unfold store.
  destruct (Nat.ltb_spec i (length buf)) as [Hi|Hi]; trivial.
  rewrite skipn_app, length_firstn.
  rewrite skipn_all2 by (rewrite length_firstn; lia).
  replace (j - Nat.min i (length buf))%nat with (S (j - S i)) by lia.
  cbn [app]. rewrite skipn_cons, skipn_skipn. f_equal. lia.
Qed.

(** The loop of [onI2CReceive] in closed form. *)
Lemma recv_loop_spec rx : forall i buf ok,
  length buf = I2C_BUF -> (i <= 31)%nat ->
  let k := Nat.min (length rx) (31 - i) in
  recv_loop rx i buf ok
  = ((i + k)%nat, firstn i buf ++ firstn k rx ++ skipn (i + k) buf, ok).
Proof.
  induction rx as [|c rx IH]; intros i buf ok Hlen Hi k; subst k.
  - cbn [recv_loop length Nat.min firstn app].
    now rewrite Nat.add_0_r, firstn_skipn.
  - cbn [recv_loop length]. change (I2C_BUF - 1)%nat with 31%nat.
    unfold I2C_BUF in Hlen.
    destruct (Nat.ltb_spec i 31) as [Hlt|Hge].
    + rewrite IH by (rewrite ?store_length; unfold I2C_BUF; lia).
      replace (Nat.min (S (length rx)) (31 - i))
        with (S (Nat.min (length rx) (31 - S i))) by lia.
      set (k := Nat.min (length rx) (31 - S i)).
      rewrite firstn_store by lia.
      rewrite skipn_store by lia.
      unfold stored_ok.
      destruct (Nat.ltb_spec i (length buf)); [|lia].
      rewrite andb_true_r, <- app_assoc.
      cbn [firstn app].
      now replace (i + S k)%nat with (S i + k)%nat by lia.
    + replace (31 - i)%nat with 0%nat by lia.
      rewrite Nat.min_0_r. cbn [firstn app].
      now rewrite Nat.add_0_r, firstn_skipn.
Qed.

Lemma recv_buf_spec rx buf :
  length buf = I2C_BUF ->
  let k := Nat.min (length rx) 31 in
  recv_buf rx buf = (k, firstn k rx ++ NUL :: skipn (S k) buf, true).
Proof.
  intros Hlen k. unfold recv_buf.
  rewrite recv_loop_spec by (trivial; lia).
  rewrite Nat.sub_0_r. cbn [Nat.add firstn app]. fold k.
  assert (Hk : (k <= 31)%nat) by (subst k; lia).
  assert (Hf : length (firstn k rx) = k)
    by (rewrite length_firstn; subst k; lia).
  unfold I2C_BUF in Hlen.
  assert (Hb : (k < length (firstn k rx ++ skipn k buf))%nat)
    by (rewrite length_app, length_skipn; lia).
  unfold stored_ok.
  destruct (Nat.ltb_spec k (length (firstn k rx ++ skipn k buf))); [|lia].
  rewrite store_inside by assumption.
  rewrite firstn_app, Hf, Nat.sub_diag, firstn_O, app_nil_r.
  rewrite firstn_all2 by lia.
  rewrite skipn_app, Hf.
  rewrite skipn_all2 by lia.
  replace (S k - k)%nat with 1%nat by lia.
  rewrite skipn_skipn. reflexivity.
Qed.

(** A command without NUL that fits is the text of the command buffer. *)
Lemma received_text rx s :
  wf s -> no_nul rx = true -> (length rx <= 31)%nat ->
  exists tail, i2cCmd (onI2CReceive rx s) = rx ++ NUL :: tail.
Proof.
  intros [Hc _] Hrx Hlen. unfold onI2CReceive.
  rewrite recv_buf_spec by assumption.
  rewrite Nat.min_l by assumption. rewrite firstn_all.
  eexists. reflexivity.
Qed.

Lemma wf_onI2CReceive rx s : wf s -> wf (onI2CReceive rx s).
Proof.
  intros [Hc Hr]. unfold onI2CReceive.
  rewrite recv_buf_spec by assumption. split; [|exact Hr].
  cbn [set_cmd i2cCmd]. unfold I2C_BUF in *.
  rewrite length_app. cbn [length].
  rewrite length_firstn, length_skipn. lia.
Qed.

Lemma wf_handleCommand s : wf s -> wf (handleCommand s).
Proof.
  intros [Hc Hr]. unfold handleCommand.
  repeat match goal with
         | |- context [if ?b then _ else _] => destruct b
         end;
    (split; [exact Hc|]); cbn [set_resp set_servo set_relay move_stepper i2cResp];
    rewrite ?strcpy_length, ?snprintf_length; trivial;
    rewrite ?strcpy_length; rewrite ?Hr; unfold I2C_BUF; cbn; lia.
Qed.

Lemma wf_initial : wf initial.
Proof. split; reflexivity. Qed.

(** The tests of [handleCommand], read on the text of the command. *)
Lemma test_prefix p a :
  no_nul p = true ->
  strncmp0 a p (length p) = true \/
  (strncmp0 a p (length p) = false /\ firstn (length p) (cstr a) <> p).
Proof.
  intros Hp. pose proof (strncmp0_prefix p Hp a) as [H1 H2].
  destruct (strncmp0 a p (length p)); [now left | right].
  split; trivial. intros E. specialize (H2 E). discriminate.
Qed.

Lemma prefix_false p a :
  no_nul p = true -> firstn (length p) (cstr a) <> p ->
  strncmp0 a p (length p) = false.
Proof.
  intros Hp H. pose proof (strncmp0_prefix p Hp a) as [H1 H2].
  destruct (strncmp0 a p (length p)); trivial. now elim H; apply H1.
Qed.

Lemma prefix_true p a :
  no_nul p = true -> firstn (length p) (cstr a) = p ->
  strncmp0 a p (length p) = true.
Proof. intros Hp H. now apply strncmp0_prefix. Qed.

Lemma equal_false p a :
  no_nul p = true -> cstr a <> p -> strcmp0 a p = false.
Proof.
  intros Hp H. pose proof (strcmp0_text p Hp a) as [H1 H2].
  destruct (strcmp0 a p); trivial. now elim H; apply H1.
Qed.

Lemma equal_true p a : no_nul p = true -> cstr a = p -> strcmp0 a p = true.
Proof. intros Hp H. now apply strcmp0_text. Qed.

Lemma text_strcpy_lit dst (x : string) :
  no_nul (lit x) = true -> text (strcpy dst (lit x)) = x.
Proof.
  intros H. unfold text. rewrite cstr_strcpy, cstr_no_nul by assumption.
  apply string_of_list_ascii_of_string.
Qed.

Ltac lit_neq := let E := fresh in intro E; vm_compute in E; discriminate E.

(** [handleCommand] by the text of the command. *)
Lemma handleCommand_servo s :
  firstn 9 (cstr (i2cCmd s)) = lit "SERVO SET" ->
  handleCommand s
  = set_resp (set_servo s (constrain (atoi (skipn 10 (i2cCmd s))) 0 180))
             (strcpy (i2cResp s) (lit "OK SERVO")).
Proof.
  intros H. unfold handleCommand.
  now rewrite (prefix_true (lit "SERVO SET")).
Qed.

Lemma handleCommand_relay_on s :
  cstr (i2cCmd s) = lit "RELAY ON" ->
  handleCommand s
  = set_resp (set_relay s true) (strcpy (i2cResp s) (lit "OK RELAY ON")).
Proof.
  intros H. unfold handleCommand.
  rewrite (prefix_false (lit "SERVO SET")) by (trivial; rewrite H; lit_neq).
  rewrite (prefix_false (lit "STEPPER MOVE")) by (trivial; rewrite H; lit_neq).
  now rewrite (equal_true (lit "RELAY ON")).
Qed.

Lemma handleCommand_relay_off s :
  cstr (i2cCmd s) = lit "RELAY OFF" ->
  handleCommand s
  = set_resp (set_relay s false) (strcpy (i2cResp s) (lit "OK RELAY OFF")).
Proof.
  intros H. unfold handleCommand.
  rewrite (prefix_false (lit "SERVO SET")) by (trivial; rewrite H; lit_neq).
  rewrite (prefix_false (lit "STEPPER MOVE")) by (trivial; rewrite H; lit_neq).
  rewrite (equal_false (lit "RELAY ON")) by (trivial; rewrite H; lit_neq).
  now rewrite (equal_true (lit "RELAY OFF")).
Qed.

Lemma handleCommand_status s :
  cstr (i2cCmd s) = lit "STATUS" ->
  handleCommand s
  = set_resp s (snprintf (i2cResp s) I2C_BUF
                  (status_text (servoPos s) (relayState s) (stepperPos s))).
Proof.
  intros H. unfold handleCommand.
  rewrite (prefix_false (lit "SERVO SET")) by (trivial; rewrite H; lit_neq).
  rewrite (prefix_false (lit "STEPPER MOVE")) by (trivial; rewrite H; lit_neq).
  rewrite (equal_false (lit "RELAY ON")) by (trivial; rewrite H; lit_neq).
  rewrite (equal_false (lit "RELAY OFF")) by (trivial; rewrite H; lit_neq).
  now rewrite (equal_true (lit "STATUS")).
Qed.

Lemma handleCommand_unknown s :
  firstn 9 (cstr (i2cCmd s)) <> lit "SERVO SET" ->
  firstn 12 (cstr (i2cCmd s)) <> lit "STEPPER MOVE" ->
  cstr (i2cCmd s) <> lit "RELAY ON" ->
  cstr (i2cCmd s) <> lit "RELAY OFF" ->
  cstr (i2cCmd s) <> lit "STATUS" ->
  handleCommand s = set_resp s (strcpy (i2cResp s) (lit "ERR CMD")).
Proof.
  intros H1 H2 H3 H4 H5. unfold handleCommand.
  rewrite (prefix_false (lit "SERVO SET")) by trivial.
  rewrite (prefix_false (lit "STEPPER MOVE")) by trivial.
  rewrite (equal_false (lit "RELAY ON")) by trivial.
  rewrite (equal_false (lit "RELAY OFF")) by trivial.
  now rewrite (equal_false (lit "STATUS")).
Qed.

(** Handling a received command is [handleCommand] on a state that differs
    from the one before in the command buffer only. *)
Lemma exec_as_handle rx s :
  wf s -> no_nul rx = true -> (length rx <= 31)%nat ->
  exists s0 tail,
    exec rx s = handleCommand s0 /\ wf s0
    /\ i2cCmd s0 = rx ++ NUL :: tail /\ cstr (i2cCmd s0) = rx
    /\ same_but_cmd s0 s.
Proof.
  intros Hwf Hrx Hlen.
  destruct (received_text rx s Hwf Hrx Hlen) as [tail E].
  pose proof (wf_onI2CReceive rx s Hwf) as [W1 W2].
  exists (set_ready (onI2CReceive rx s) false), tail.
  split; [reflexivity|]. split; [split; assumption|].
  split; [exact E|]. split.
  - cbn [set_ready set_cmd i2cCmd]. rewrite E. now apply cstr_app_nul.
  - clear. unfold same_but_cmd, onI2CReceive.
    destruct (recv_buf rx (i2cCmd s)) as [[i b] ok].
    cbn. repeat split.
Qed.

Lemma to_int_small n : INT_MIN <= n <= INT_MAX -> to_int n = n.
Proof.
  unfold INT_MIN, INT_MAX, to_int. intros H.
  rewrite Z.mod_small; lia.
Qed.

Lemma servo_set_fits n :
  INT_MIN <= n <= INT_MAX ->
  no_nul (servo_set n) = true /\ (length (servo_set n) <= 31)%nat.
Proof.
  unfold INT_MIN, INT_MAX, servo_set. intros H. split.
  - rewrite no_nul_app, dec_no_nul. reflexivity.
  - rewrite length_app. change (length (lit "SERVO SET ")) with 10%nat.
    destruct (Z.ltb_spec n 0).
    + pose proof (dec_length_neg n 4). change (10 ^ Z.of_nat 5) with 100000 in *.
      lia.
    + pose proof (dec_length n 4). change (10 ^ Z.of_nat 5) with 100000 in *.
      lia.
Qed.

(** [SERVO SET <n>] handled, for an [n] the board's [int] holds. *)
Lemma exec_servo_set n s :
  wf s -> INT_MIN <= n <= INT_MAX ->
  let s1 := exec (servo_set n) s in
  wf s1 /\ servoPos s1 = constrain n 0 180 /\ resp_text s1 = "OK SERVO"%string
  /\ stepperPos s1 = stepperPos s /\ relayState s1 = relayState s
  /\ btnEvent s1 = btnEvent s /\ lastState s1 = lastState s.
Proof.
  intros Hwf Hn s1. subst s1.
  destruct (servo_set_fits n Hn) as [Hnn Hlen].
  destruct (exec_as_handle _ s Hwf Hnn Hlen)
    as (s0 & tail & E & Hwf0 & Ebuf & Etxt & F).
  destruct F as (_ & _ & F3 & F4 & F5 & F6 & _).
  rewrite E. clear E.
  pose proof (wf_handleCommand s0 Hwf0) as Hwf1.
  rewrite handleCommand_servo in * by (rewrite Etxt; reflexivity).
  split; [exact Hwf1|].
  rewrite Ebuf.
  change (skipn 10 (servo_set n ++ NUL :: tail)) with (dec n ++ NUL :: tail).
  unfold atoi. rewrite parse_dec by reflexivity.
  rewrite to_int_small by assumption.
  unfold resp_text.
  cbn [set_resp set_servo i2cResp servoPos stepperPos relayState btnEvent
       lastState].
  rewrite text_strcpy_lit by reflexivity.
  repeat split; assumption.
Qed.

(** [STATUS] handled. *)
Lemma exec_status s :
  wf s ->
  let s1 := exec (lit "STATUS") s in
  wf s1
  /\ cstr (i2cResp s1)
     = firstn 31 (status_text (servoPos s) (relayState s) (stepperPos s))
  /\ servoPos s1 = servoPos s /\ stepperPos s1 = stepperPos s
  /\ relayState s1 = relayState s
  /\ btnEvent s1 = btnEvent s /\ lastState s1 = lastState s.
Proof.
  intros Hwf s1. subst s1.
  destruct (exec_as_handle (lit "STATUS") s Hwf eq_refl)
    as (s0 & tail & E & Hwf0 & _ & Etxt & F).
  { cbn. lia. }
  destruct F as (_ & F2 & F3 & F4 & F5 & F6 & _).
  rewrite E. clear E.
  pose proof (wf_handleCommand s0 Hwf0) as Hwf1.
  rewrite handleCommand_status in * by assumption.
  split; [exact Hwf1|].
  cbn [set_resp i2cResp servoPos stepperPos relayState btnEvent lastState].
  rewrite F2, F3, F4.
  split; [|repeat split; assumption].
  change I2C_BUF with 32%nat. apply cstr_snprintf.
  unfold status_text. rewrite !no_nul_app, !dec_no_nul.
  now destruct (relayState s).
Qed.

(** The [SERVO] and [RELAY] fields of the [STATUS] answer are never cut,
    and at least three characters of the [STEPPER] field are left. *)
Lemma status_fields v r st :
  0 <= v <= 180 ->
  exists k, (3 <= k)%nat /\
    firstn 31 (status_text v r st)
    = lit "SERVO=" ++ dec v ++ lit " RELAY=" ++ lit (if r then "ON" else "OFF")
        ++ lit " STEPPER=" ++ firstn k (dec st).
Proof.
  intros Hv. unfold status_text.
  assert (Hl : (length (dec v) <= 3)%nat).
  { apply (dec_length v 2). change (10 ^ Z.of_nat 3) with 1000. lia. }
  set (onoff := lit (if r then "ON" else "OFF")).
  assert (Ho : (length onoff <= 3)%nat) by (subst onoff; destruct r; cbn; lia).
  set (P := lit "SERVO=" ++ dec v ++ lit " RELAY=" ++ onoff ++ lit " STEPPER=").
  assert (HP : (length P <= 28)%nat).
  { subst P. rewrite !length_app.
    change (length (lit "SERVO=")) with 6%nat.
    change (length (lit " RELAY=")) with 7%nat.
    change (length (lit " STEPPER=")) with 9%nat. lia. }
  exists (31 - length P)%nat. split; [lia|].
  replace (lit "SERVO=" ++ dec v ++ lit " RELAY=" ++ onoff
             ++ lit " STEPPER=" ++ dec st) with (P ++ dec st)
    by (subst P; now rewrite <- !app_assoc).
  replace (lit "SERVO=" ++ dec v ++ lit " RELAY=" ++ onoff
             ++ lit " STEPPER=" ++ firstn (31 - length P) (dec st))
    with (P ++ firstn (31 - length P) (dec st))
    by (subst P; now rewrite <- !app_assoc).
  rewrite firstn_app. f_equal. apply firstn_all2. lia.
Qed.

(** [onI2CRequest] in closed form. *)
Lemma tmpResp_spec resp :
  let body := firstn 31 (cstr resp) in
  store (strncpy (repeat NUL I2C_BUF) resp (I2C_BUF - 1)) (I2C_BUF - 1) NUL
  = body ++ repeat NUL (31 - length body) ++ [NUL].
Proof.
  intros body. unfold strncpy. change (I2C_BUF - 1)%nat with 31%nat. fold body.
  assert (Hb : (length body <= 31)%nat)
    by (subst body; rewrite length_firstn; lia).
  set (X := body ++ repeat NUL (31 - length body)).
  assert (HX : length X = 31%nat)
    by (subst X; rewrite length_app, repeat_length; lia).
  assert (E : blit X (repeat NUL I2C_BUF) = X ++ [NUL])
    by (unfold blit; rewrite HX; reflexivity).
  rewrite E. rewrite store_inside by (rewrite length_app, HX; cbn; lia).
  rewrite firstn_app, HX, Nat.sub_diag, firstn_O, app_nil_r.
  rewrite firstn_all2 by lia.
  rewrite skipn_all2 by (rewrite length_app, HX; cbn; lia).
  subst X. now rewrite <- app_assoc.
Qed.

Lemma cstr_padded body k :
  no_nul body = true -> cstr (body ++ repeat NUL k ++ [NUL]) = body.
Proof.
  intros H. destruct k as [|k]; cbn [repeat app]; now apply cstr_app_nul.
Qed.

Lemma onI2CRequest_spec s :
  onI2CRequest s
  = (req_text s ++ [NUL],
     if btnEvent s then set_button s false (lastState s) else s).
Proof.
  unfold onI2CRequest, req_text. rewrite tmpResp_spec.
  change (I2C_BUF - 1)%nat with 31%nat.
  set (body := firstn 31 (cstr (i2cResp s))).
  assert (Hn : no_nul body = true)
    by (subst body; apply no_nul_firstn, no_nul_cstr).
  assert (Hb : (length body <= 31)%nat)
    by (subst body; rewrite length_firstn; lia).
  set (tmp1 := body ++ repeat NUL (31 - length body) ++ [NUL]).
  assert (Hs : strlen tmp1 = length body)
    by (unfold strlen; subst tmp1; now rewrite cstr_padded).
  assert (Ht : cstr tmp1 = body) by (subst tmp1; now apply cstr_padded).
  destruct (btnEvent s); f_equal.
  - unfold strncat. rewrite Ht, Hs.
    change (cstr BTN_MARK) with BTN_MARK.
    replace (I2C_BUF - length body - 1)%nat with (31 - length body)%nat
      by (unfold I2C_BUF; lia).
    set (m := firstn (31 - length body) BTN_MARK).
    assert (Hm : no_nul m = true) by (subst m; now apply no_nul_firstn).
    rewrite app_assoc, blit_app_cons.
    unfold strlen. rewrite cstr_app_nul by (now rewrite no_nul_app, Hn, Hm).
    rewrite firstn_app.
    replace (length (body ++ m) + 1 - length (body ++ m))%nat with 1%nat by lia.
    rewrite firstn_all2 by lia.
    reflexivity.
  - rewrite Hs, app_nil_r. subst tmp1.
    rewrite firstn_app.
    replace (length body + 1 - length body)%nat with 1%nat by lia.
    rewrite firstn_all2 by lia.
    now destruct (31 - length body)%nat.
Qed.

Lemma req_text_length s : (length (req_text s) <= 31)%nat.
Proof.
  unfold req_text. change (I2C_BUF - 1)%nat with 31%nat.
  rewrite length_app.
  assert ((length (firstn 31 (cstr (i2cResp s))) <= 31)%nat)
    by (rewrite length_firstn; lia).
  destruct (btnEvent s); cbn [length]; rewrite ?length_firstn; lia.
Qed.

Lemma req_text_no_nul s : no_nul (req_text s) = true.
Proof.
  unfold req_text. rewrite no_nul_app.
  rewrite no_nul_firstn by apply no_nul_cstr.
  destruct (btnEvent s); [|reflexivity].
  now apply no_nul_firstn.
Qed.

Lemma exec_relay_on s :
  wf s ->
  let s1 := exec (lit "RELAY ON") s in
  wf s1 /\ relayState s1 = true /\ resp_text s1 = "OK RELAY ON"%string
  /\ btnEvent s1 = btnEvent s /\ lastState s1 = lastState s.
Proof.
  intros Hwf s1. subst s1.
  destruct (exec_as_handle (lit "RELAY ON") s Hwf eq_refl)
    as (s0 & tail & E & Hwf0 & _ & Etxt & F).
  { cbn. lia. }
  destruct F as (_ & _ & _ & _ & F5 & F6 & _).
  rewrite E. clear E.
  pose proof (wf_handleCommand s0 Hwf0) as Hwf1.
  rewrite handleCommand_relay_on in * by assumption.
  split; [exact Hwf1|].
  unfold resp_text.
  cbn [set_resp set_relay i2cResp relayState btnEvent lastState].
  rewrite text_strcpy_lit by reflexivity.
  repeat split; assumption.
Qed.

Lemma exec_relay_off s :
  wf s ->
  let s1 := exec (lit "RELAY OFF") s in
  wf s1 /\ relayState s1 = false /\ resp_text s1 = "OK RELAY OFF"%string
  /\ btnEvent s1 = btnEvent s /\ lastState s1 = lastState s.
Proof.
  intros Hwf s1. subst s1.
  destruct (exec_as_handle (lit "RELAY OFF") s Hwf eq_refl)
    as (s0 & tail & E & Hwf0 & _ & Etxt & F).
  { cbn. lia. }
  destruct F as (_ & _ & _ & _ & F5 & F6 & _).
  rewrite E. clear E.
  pose proof (wf_handleCommand s0 Hwf0) as Hwf1.
  rewrite handleCommand_relay_off in * by assumption.
  split; [exact Hwf1|].
  unfold resp_text.
  cbn [set_resp set_relay i2cResp relayState btnEvent lastState].
  rewrite text_strcpy_lit by reflexivity.
  repeat split; assumption.
Qed.

(** A frame read while no event is pending, after a turn of [loop] with the
    button up: the response as it is, and nothing changes. *)
Lemma idle_request s :
  btnEvent s = false -> (length (cstr (i2cResp s)) <= 31)%nat ->
  onI2CRequest (handleButton true s)
  = (cstr (i2cResp s) ++ [NUL], handleButton true s)
  /\ btnEvent (handleButton true s) = false.
Proof.
  intros Hb Hl. rewrite onI2CRequest_spec. unfold req_text.
  cbn [handleButton set_button btnEvent i2cResp].
  rewrite andb_false_r, Hb.
  change (I2C_BUF - 1)%nat with 31%nat.
  now rewrite firstn_all2, app_nil_r by assumption.
Qed.

Lemma cstr_app_le l rest : (length (cstr (l ++ NUL :: rest)) <= length l)%nat.
Proof.
  induction l as [|c l IH]; cbn [app cstr length].
  - change (is_nul NUL) with true. cbn. lia.
  - destruct (is_nul c); cbn [length]; lia.
Qed.

Lemma firstn_min_all {A} (l : list A) n :
  firstn (Nat.min (length l) n) l = firstn n l.
Proof.
  destruct (Nat.le_ge_cases (length l) n).
  - rewrite Nat.min_l by assumption.
    now rewrite firstn_all, firstn_all2.
  - now rewrite Nat.min_r.
Qed.

Lemma loop_after_receive pin rx s :
  loop pin (onI2CReceive rx s) = handleButton pin (exec rx s).
Proof.
  unfold loop, exec, onI2CReceive.
  now destruct (recv_buf rx (i2cCmd s)) as [[i b] ok].
Qed.

End ExecutorFacts.

(** ** The actuator board: the protocol *)

Module ExecutorSpec.
Import CStr CStrFacts Dec DecFacts Executor ExecutorFacts.

(** C9. Before any command the response buffer holds READY, the servo is at
    90, the stepper at 0, the relay is off and no button event is pending,
    both as the globals are initialised and after [setup]; a frame read then
    is READY, and STATUS as the first command answers
    SERVO=90 RELAY=OFF STEPPER=0. *)
Theorem initial_state :
  (resp_text globals = "READY"%string /\ servoPos globals = 90
   /\ stepperPos globals = 0 /\ relayState globals = false
   /\ btnEvent globals = false)
  /\ (resp_text initial = "READY"%string /\ servoPos initial = 90
      /\ stepperPos initial = 0 /\ relayState initial = false
      /\ btnEvent initial = false)
  /\ map text (fst (run [Request] initial)) = ["READY"%string]
  /\ resp_text (exec (lit "STATUS") initial)
     = "SERVO=90 RELAY=OFF STEPPER=0"%string
  /\ map text (fst (run [Receive (lit "STATUS"); Loop true; Request] initial))
     = ["SERVO=90 RELAY=OFF STEPPER=0"%string].
Proof. vm_compute. repeat split. Qed.

(** C8. Whatever the length of what the master sends, [onI2CReceive] stores
    its first 31 bytes at most, every store falls inside the 32-byte command
    buffer, a NUL is written right after the stored bytes, at an index not
    above 31, and the bytes after that NUL stay as they were: the command
    held is NUL-terminated and no longer than 31 characters. *)
Theorem onI2CReceive_bounded rx s :
  wf s ->
  let i := Nat.min (length rx) 31 in
  let buf := i2cCmd (onI2CReceive rx s) in
  recv_buf rx (i2cCmd s) = (i, buf, true)
  /\ (i <= I2C_BUF - 1)%nat
  /\ length buf = I2C_BUF
  /\ firstn i buf = firstn 31 rx
  /\ nth_error buf i = Some NUL
  /\ skipn (S i) buf = skipn (S i) (i2cCmd s)
  /\ (strlen buf <= i)%nat
  /\ cmdReady (onI2CReceive rx s) = true.
Proof.
  intros [Hc Hr] i buf. subst buf. unfold onI2CReceive.
  rewrite recv_buf_spec by assumption. fold i.
  cbn [set_cmd i2cCmd cmdReady].
  assert (Hi : (i <= 31)%nat) by (subst i; lia).
  assert (Hf : length (firstn i rx) = i)
    by (rewrite length_firstn; subst i; lia).
  unfold I2C_BUF in *.
  repeat split.
  - cbn. lia.
  - rewrite length_app. cbn [length]. rewrite Hf, length_skipn. lia.
  - rewrite firstn_app, Hf, Nat.sub_diag, firstn_O, app_nil_r.
    rewrite firstn_all2 by lia. subst i. apply firstn_min_all.
  - rewrite nth_error_app2 by lia. now rewrite Hf, Nat.sub_diag.
  - rewrite skipn_app, Hf. rewrite skipn_all2 by lia.
    replace (S i - i)%nat with 1%nat by lia. reflexivity.
  - unfold strlen. pose proof (cstr_app_le (firstn i rx) (skipn (S i) (i2cCmd s))).
    lia.
Qed.

Lemma onI2CReceive_bounded_witness :
  firstn 31 (i2cCmd (onI2CReceive (repeat "A"%char 40) initial))
  = repeat "A"%char 31
  /\ nth_error (i2cCmd (onI2CReceive (repeat "A"%char 40) initial)) 31
     = Some NUL
  /\ (strlen (i2cCmd (onI2CReceive (repeat "A"%char 40) initial)) <= 31)%nat.
Proof.
  destruct (onI2CReceive_bounded (repeat "A"%char 40) initial wf_initial)
    as (_ & _ & _ & Hf & Hn & _ & Hs & _).
  exact (conj Hf (conj Hn Hs)).
Defined.











(** The stepper field of the answer to STATUS can lose its end: a full turn
    of the stepper with the servo at 180 is reported as 204. *)
Example status_stepper_cut :
  resp_text (exec (lit "STATUS")
               (exec (lit "STEPPER MOVE 2048") (exec (servo_set 180) initial)))
  = "SERVO=180 RELAY=OFF STEPPER=204"%string.
Proof. reflexivity. Qed.

(** C2, as the board has it.  For an [n] outside 0..180 that the 16-bit
    [int] of the board holds (-32768 <= n <= 32767), SERVO SET n answers
    OK SERVO and leaves the servo position at 180 when n > 180 and at 0 when
    n < 0; STATUS right after reports SERVO= that value, which is not n. *)
Theorem servo_set_clamped n s :
  wf s -> INT_MIN <= n <= INT_MAX -> n < 0 \/ 180 < n ->
  let c := if 180 <? n then 180 else 0 in
  let s1 := exec (servo_set n) s in
  let s2 := exec (lit "STATUS") s1 in
  resp_text s1 = "OK SERVO"%string
  /\ servoPos s1 = c
  /\ c <> n
  /\ exists k, (3 <= k)%nat /\
       cstr (i2cResp s2)
       = lit "SERVO=" ++ dec c ++ lit " RELAY="
           ++ lit (if relayState s then "ON" else "OFF")
           ++ lit " STEPPER=" ++ firstn k (dec (stepperPos s)).
Proof.
  intros Hwf Hi Hout c s1 s2.
  destruct (exec_servo_set n s Hwf Hi) as (Hwf1 & Hp & Hr & Hst & Hre & _).
  fold s1 in Hwf1, Hp, Hr, Hst, Hre.
  assert (Hc : constrain n 0 180 = c /\ 0 <= c <= 180 /\ c <> n).
  { unfold constrain. subst c.
    destruct (Z.ltb_spec n 0); destruct (Z.ltb_spec 180 n);
      destruct (Z.gtb_spec n 180); lia. }
  destruct Hc as (Hc & Hr180 & Hne). rewrite Hc in Hp.
  destruct (exec_status s1 Hwf1) as (_ & Ht & _).
  fold s2 in Ht.
  rewrite Hp, Hst, Hre in Ht.
  destruct (status_fields c (relayState s) (stepperPos s) Hr180)
    as (k & Hk & Ek).
  repeat split; try assumption.
  exists k. split; [assumption | congruence].
Qed.

Lemma servo_set_clamped_witness :
  servoPos (exec (servo_set 200) initial) = 180
  /\ resp_text (exec (lit "STATUS") (exec (servo_set 200) initial))
     = "SERVO=180 RELAY=OFF STEPPER=0"%string.
Proof.
  assert (Hi : INT_MIN <= 200 <= INT_MAX) by (unfold INT_MIN, INT_MAX; lia).
  assert (Ho : 200 < 0 \/ 180 < 200) by lia.
  destruct (servo_set_clamped 200 initial wf_initial Hi Ho)
    as (_ & Hp & _ & _).
  split; [exact Hp | reflexivity].
Defined.

(** C2, as it is stated, fails where [n] is beyond the board's [int]:
    65636 is above 180, yet SERVO SET 65636 leaves the servo at 100, the
    value [atoi] wraps to, and STATUS reports SERVO=100, not SERVO=180. *)
Lemma servo_set_65636_wraps :
  180 < 65636
  /\ servoPos (exec (servo_set 65636) initial) = 100
  /\ servoPos (exec (servo_set 65636) initial) <> 180
  /\ resp_text (exec (lit "STATUS") (exec (servo_set 65636) initial))
     = "SERVO=100 RELAY=OFF STEPPER=0"%string.
Proof. vm_compute. repeat split; discriminate. Qed.

(** C6, as the board has it.  A command that matches none of the known
    verbs (its words begin with the words of none of them) and whose
    characters begin with neither SERVO SET nor STEPPER MOVE is answered
    ERR CMD, and the servo position, the stepper position, the relay state,
    what was written to the devices and the button event stay as they
    were. *)
Theorem unmatched_command_err s :
  spec_matches_known_verb (cmd_chars s) = false ->
  ~ starts_with "SERVO SET" (cmd_chars s) ->
  ~ starts_with "STEPPER MOVE" (cmd_chars s) ->
  let s1 := handleCommand s in
  resp_text s1 = "ERR CMD"%string
  /\ servoPos s1 = servoPos s /\ stepperPos s1 = stepperPos s
  /\ relayState s1 = relayState s
  /\ servoOut s1 = servoOut s /\ relayPin s1 = relayPin s
  /\ shaft s1 = shaft s /\ btnEvent s1 = btnEvent s.
Proof.
  intros Hm H1 H2 s1. subst s1. unfold cmd_chars in *.
  rewrite handleCommand_unknown; trivial;
    try (intros E; rewrite E in Hm; vm_compute in Hm; discriminate Hm).
  unfold resp_text. cbn [set_resp i2cResp].
  rewrite text_strcpy_lit by reflexivity.
  repeat split.
Qed.

Lemma unmatched_command_err_witness :
  resp_text (exec (lit "RELAY TOGGLE") initial) = "ERR CMD"%string
  /\ relayState (exec (lit "RELAY TOGGLE") initial) = false.
Proof.
  pose (s := set_ready (onI2CReceive (lit "RELAY TOGGLE") initial) false).
  assert (Hm : spec_matches_known_verb (cmd_chars s) = false) by reflexivity.
  assert (H1 : ~ starts_with "SERVO SET" (cmd_chars s)) by lit_neq.
  assert (H2 : ~ starts_with "STEPPER MOVE" (cmd_chars s)) by lit_neq.
  destruct (unmatched_command_err s Hm H1 H2) as (Hr & _ & _ & Hre & _).
  exact (conj Hr Hre).
Defined.

(** C6, as it is stated, fails: SERVO SETTLE and STEPPER MOVED9999 match
    none of the known verbs, yet the first is answered OK SERVO and drives
    the servo from 90 to 0, and the second is answered OK STEPPER and gives
    the motor 9999 steps. *)
Lemma servo_settle_accepted :
  spec_matches_known_verb (lit "SERVO SETTLE") = false
  /\ cmd_chars (set_ready (onI2CReceive (lit "SERVO SETTLE") initial) false)
     = lit "SERVO SETTLE"
  /\ resp_text (exec (lit "SERVO SETTLE") initial) = "OK SERVO"%string
  /\ resp_text (exec (lit "SERVO SETTLE") initial) <> "ERR CMD"%string
  /\ servoPos initial = 90
  /\ servoPos (exec (lit "SERVO SETTLE") initial) = 0
  /\ spec_matches_known_verb (lit "STEPPER MOVED9999") = false
  /\ resp_text (exec (lit "STEPPER MOVED9999") initial) = "OK STEPPER"%string
  /\ stepperPos (exec (lit "STEPPER MOVED9999") initial) = 9999.
Proof. vm_compute. repeat split. discriminate. Qed.

(** In particular a command that begins with none of the five verbs. *)
Corollary unknown_prefix_err s :
  ~ starts_with "SERVO SET" (cmd_chars s) ->
  ~ starts_with "STEPPER MOVE" (cmd_chars s) ->
  ~ starts_with "RELAY ON" (cmd_chars s) ->
  ~ starts_with "RELAY OFF" (cmd_chars s) ->
  ~ starts_with "STATUS" (cmd_chars s) ->
  handleCommand s = set_resp s (strcpy (i2cResp s) (lit "ERR CMD")).
Proof.
  intros H1 H2 H3 H4 H5.
  apply handleCommand_unknown; trivial;
    intros E; [apply H3 | apply H4 | apply H5];
    unfold starts_with, cmd_chars; rewrite E; reflexivity.
Qed.

Lemma wf_handleButton pin s : wf s -> wf (handleButton pin s).
Proof. intros H. exact H. Qed.

Lemma text_is_lit buf (x : string) : text buf = x -> cstr buf = lit x.
Proof.
  unfold text, lit. intros H. rewrite <- H.
  now rewrite list_ascii_of_string_of_list_ascii.
Qed.

Lemma run_receive_loop rx pin es s :
  run (Receive rx :: Loop pin :: es) s = run es (handleButton pin (exec rx s)).
Proof.
  cbn [run step]. rewrite loop_after_receive.
  now destruct (run es (handleButton pin (exec rx s))).
Qed.

Lemma run_request es s :
  run (Request :: es) s
  = (fst (onI2CRequest s) :: fst (run es (snd (onI2CRequest s))),
     snd (run es (snd (onI2CRequest s)))).
Proof.
  cbn [run step]. destruct (onI2CRequest s) as [f s1].
  cbn [fst snd]. now destruct (run es s1).
Qed.

(** A command, a turn of the loop with the button up, and a read, when no
    event is pending: the frame is the answer to the command. *)
Lemma command_then_read rx (x : string) es s :
  btnEvent (exec rx s) = false ->
  resp_text (exec rx s) = x -> (length (lit x) <= 31)%nat ->
  run (Receive rx :: Loop true :: Request :: es) s
  = ((lit x ++ [NUL]) :: fst (run es (handleButton true (exec rx s))),
     snd (run es (handleButton true (exec rx s)))).
Proof.
  rewrite run_receive_loop, run_request.
  generalize (exec rx s) as s1. intros s1 Hb Ht Hl.
  apply text_is_lit in Ht.
  destruct (idle_request s1 Hb) as [E _]; [now rewrite Ht|].
  rewrite E, Ht. reflexivity.
Qed.

Lemma text_lit_frame (x : string) :
  no_nul (lit x) = true -> text (lit x ++ [NUL]) = x.
Proof. intros H. now apply text_lit_nul. Qed.

(** C7. RELAY ON and then RELAY OFF are answered OK RELAY ON and then
    OK RELAY OFF and leave the relay off; read by the master after each
    command, with no button event in between, these are the two frames it
    gets, in this order. *)
Theorem relay_on_then_off s :
  wf s -> btnEvent s = false ->
  let s1 := exec (lit "RELAY ON") s in
  let s2 := exec (lit "RELAY OFF") s1 in
  let r := run [Receive (lit "RELAY ON"); Loop true; Request;
                Receive (lit "RELAY OFF"); Loop true; Request] s in
  relayState s1 = true /\ resp_text s1 = "OK RELAY ON"%string
  /\ relayState s2 = false /\ resp_text s2 = "OK RELAY OFF"%string
  /\ map text (fst r) = ["OK RELAY ON"%string; "OK RELAY OFF"%string]
  /\ relayState (snd r) = false.
Proof.
  intros Hwf Hb. cbv zeta.
  destruct (exec_relay_on s Hwf) as (Hwf1 & Hre1 & Ht1 & Hb1 & _).
  rewrite Hb in Hb1.
  rewrite (command_then_read _ "OK RELAY ON") by (trivial; cbn; lia).
  revert Hwf1 Hre1 Ht1 Hb1.
  generalize (exec (lit "RELAY ON") s) as s1. clear s Hwf Hb.
  intros s1 Hwf1 Hre1 Ht1 Hb1.
  destruct (exec_relay_off s1 Hwf1) as (_ & Hre2 & Ht2 & _).
  repeat (split; [assumption|]).
  assert (Hb1' : btnEvent (handleButton true s1) = false).
  { cbn [handleButton set_button btnEvent]. now rewrite andb_false_r. }
  revert Hb1'. generalize (wf_handleButton true s1 Hwf1).
  generalize (handleButton true s1) as s1'. clear s1 Hwf1 Hre1 Ht1 Hb1 Hre2 Ht2.
  intros s1' Hwf1' Hb1'.
  destruct (exec_relay_off s1' Hwf1') as (_ & Hre3 & Ht3 & Hb3 & _).
  rewrite Hb1' in Hb3.
  rewrite (command_then_read _ "OK RELAY OFF") by (trivial; cbn; lia).
  revert Hre3. generalize (exec (lit "RELAY OFF") s1') as s3.
  intros s3 Hre3. cbn [fst snd run map].
  rewrite !text_lit_frame by reflexivity.
  split; [reflexivity | exact Hre3].
Qed.

Lemma relay_on_then_off_witness :
  map text (fst (run [Receive (lit "RELAY ON"); Loop true; Request;
                      Receive (lit "RELAY OFF"); Loop true; Request] initial))
  = ["OK RELAY ON"%string; "OK RELAY OFF"%string]
  /\ relayState (exec (lit "RELAY OFF") (exec (lit "RELAY ON") initial)) = false.
Proof.
  destruct (relay_on_then_off initial wf_initial eq_refl)
    as (_ & _ & Hoff & _ & Hout & _).
  exact (conj Hout Hoff).
Defined.

(** What [onI2CRequest] does with the button event. *)
Lemma request_clears_event s : btnEvent (snd (onI2CRequest s)) = false.
Proof.
  rewrite onI2CRequest_spec. cbn [snd].
  destruct (btnEvent s) eqn:E; [reflexivity | exact E].
Qed.

Lemma request_without_event s :
  btnEvent s = false ->
  fst (onI2CRequest s) = firstn 31 (cstr (i2cResp s)) ++ [NUL]
  /\ snd (onI2CRequest s) = s.
Proof.
  intros H. rewrite onI2CRequest_spec. unfold req_text. rewrite H.
  cbn [fst snd]. now rewrite app_nil_r.
Qed.

Lemma request_with_event_and_room s :
  btnEvent s = true -> (strlen (i2cResp s) <= 18)%nat ->
  fst (onI2CRequest s) = cstr (i2cResp s) ++ BTN_MARK ++ [NUL].
Proof.
  unfold strlen. intros H Hl. rewrite onI2CRequest_spec. unfold req_text.
  rewrite H. cbn [fst]. change (I2C_BUF - 1)%nat with 31%nat.
  rewrite (firstn_all2 (n := 31)) by lia.
  rewrite firstn_all2 by (change (length BTN_MARK) with 13%nat; lia).
  now rewrite <- app_assoc.
Qed.

Lemma presses_coalesce s :
  btnEvent (handleButton false (handleButton true (handleButton false s)))
  = true
  /\ btnEvent (snd (onI2CRequest
        (handleButton false (handleButton true (handleButton false s)))))
     = false.
Proof.
  split; [|apply request_clears_event].
  cbn [handleButton set_button btnEvent lastState]. reflexivity.
Qed.

(** C4 on the board.  A button press while the response is the answer to
    STATUS: the frame read next carries only the first three characters of
    the marker, the event is cleared all the same, and the frame after that
    carries nothing of it. *)
Theorem button_marker_cut_on_status :
  let r := run [Receive (lit "STATUS"); Loop true; Loop false;
                Request; Request] initial in
  map text (fst r) = ["SERVO=90 RELAY=OFF STEPPER=0 +B"%string;
                      "SERVO=90 RELAY=OFF STEPPER=0"%string]
  /\ btnEvent (snd r) = false.
Proof. vm_compute. split; reflexivity. Qed.

End ExecutorSpec.

(** ** The sensor hub *)

Module SensorHubSpec.
Import CStr CStrFacts Dec DecFacts SensorHub.

Lemma skipn_repeat {A} (x : A) n : forall k,
  skipn k (repeat x n) = repeat x (n - k).
Proof.
  induction n as [|n IH]; intros [|k]; cbn [repeat skipn Nat.sub]; trivial.
Qed.

(** The frame of [onI2CRequest] in closed form: the text cut to 31
    characters, then NULs up to 32 bytes. *)
Lemma frame_spec fmt now data resp :
  fst (onI2CRequest fmt now data resp)
  = padded (firstn 31 (reply_text fmt data (clapSec now data))).
Proof.
  unfold onI2CRequest, padded. cbn [fst].
  set (t := firstn 31 (reply_text fmt data (clapSec now data))).
  assert (Ht : (length t <= 31)%nat) by (subst t; rewrite length_firstn; lia).
  unfold memset0, I2C_BUF, snprintf. fold t.
  rewrite blit_app_cons. unfold blit at 1.
  rewrite repeat_length, skipn_app, skipn_repeat, repeat_length.
  generalize (skipn 32 resp) as rest. intros rest.
  replace (S (length t) - 32)%nat with 0%nat by lia.
  rewrite skipn_O.
  replace (32 - length t)%nat with (S (32 - S (length t))) by lia.
  cbn [repeat].
  set (pad := repeat NUL (32 - S (length t))).
  assert (Hp : length pad = (31 - length t)%nat)
    by (subst pad; rewrite repeat_length; lia).
  change (t ++ NUL :: pad ++ rest) with (t ++ (NUL :: pad) ++ rest).
  rewrite app_assoc, firstn_app.
  rewrite firstn_all2 by (rewrite length_app; cbn [length]; lia).
  replace (32 - length (t ++ NUL :: pad))%nat with 0%nat
    by (rewrite length_app; cbn [length]; lia).
  now rewrite firstn_O, app_nil_r.
Qed.

Lemma padded_length t : (length t <= 31)%nat -> length (padded t) = I2C_BUF.
Proof.
  intros H. unfold padded, I2C_BUF.
  rewrite length_app, repeat_length. lia.
Qed.

Lemma padded_text t :
  no_nul t = true -> (length t <= 31)%nat ->
  text (padded t) = string_of_list_ascii t.
Proof.
  intros Hn Hl. unfold padded, I2C_BUF.
  replace (32 - length t)%nat with (S (31 - length t)) by lia.
  cbn [repeat]. now apply text_app_nul.
Qed.

Lemma clapSec_elapsed now data :
  0 < lastClapMs data ->
  let secs := to_ulong (now - lastClapMs data) / 1000 in
  clapSec now data = if secs >=? 1000 then -1 else secs.
Proof.
  intros H secs. unfold clapSec.
  destruct (Z.gtb_spec (lastClapMs data) 0); [|lia].
  fold secs.
  assert (Hs : 0 <= secs < 2 ^ 31).
  { subst secs. unfold to_ulong.
    pose proof (Z.mod_pos_bound (now - lastClapMs data) (2 ^ 32) eq_refl).
    split; [apply Z.div_pos; lia|].
    apply Z.div_lt_upper_bound; [lia|].
    change (2 ^ 32) with 4294967296 in *. change (2 ^ 31) with 2147483648. lia. }
  unfold to_int. rewrite Z.mod_small.
  - now replace (secs + 2 ^ 31 - 2 ^ 31) with secs by lia.
  - change (2 ^ 32) with 4294967296. change (2 ^ 31) with 2147483648 in *. lia.
Qed.

(** C3, as the hub has it.  The frame answering a read is the text
    T=<f> H=<f> P=<int> C=<int>, cut to 31 characters and NUL-padded to 32
    bytes, so the text itself whenever it has at most 31 characters.  C is
    -1 when [lastClapMs] is 0 (no clap recorded).  For a clap recorded at a
    counter value other than 0 and a read whose [now] is taken d
    milliseconds after it, d below 2^32 (the 32-bit millisecond counter has
    not gone round since), C is the whole seconds of d when d is below
    1000 s, and -1 from 1000 s on. *)
Theorem sensor_reply_since_clap fmt data resp :
  (forall now,
     let txt := lit "T=" ++ fmt (temp data) ++ lit " H=" ++ fmt (hum data)
                  ++ lit " P=" ++ dec (photo data) ++ lit " C="
                  ++ dec (clapSec now data) in
     fst (onI2CRequest fmt now data resp) = padded (firstn 31 txt)
     /\ (no_nul txt = true -> (length txt <= 31)%nat ->
         text (fst (onI2CRequest fmt now data resp))
         = string_of_list_ascii txt))
  /\ (lastClapMs data = 0 -> forall now, clapSec now data = -1)
  /\ (0 < lastClapMs data ->
      forall d, 0 <= d < 2 ^ 32 ->
        let c := clapSec (to_ulong (lastClapMs data + d)) data in
        (d < 1000000 -> c = d / 1000 /\ 0 <= c <= 999)
        /\ (1000000 <= d -> c = -1)).
Proof.
  split.
  { intros now txt. split; [apply frame_spec|].
    intros Hn Hl. rewrite frame_spec.
    change (reply_text fmt data (clapSec now data)) with txt.
    rewrite firstn_all2 by assumption. now apply padded_text. }
  split.
  { intros H0 now. unfold clapSec. now rewrite H0. }
  intros Hpos d Hd c. subst c.
  rewrite clapSec_elapsed by assumption.
  unfold to_ulong. rewrite Zminus_mod_idemp_l.
  replace (lastClapMs data + d - lastClapMs data) with d by lia.
  rewrite Z.mod_small by assumption.
  assert (Hq : 0 <= d / 1000) by (apply Z.div_pos; lia).
  split; intros Hs.
  - assert (d / 1000 < 1000) by (apply Z.div_lt_upper_bound; lia).
    destruct (Z.geb_spec (d / 1000) 1000); [lia|]. split; [reflexivity | lia].
  - assert (1000 <= d / 1000) by (apply Z.div_le_lower_bound; lia).
    destruct (Z.geb_spec (d / 1000) 1000); [reflexivity | lia].
Qed.

Lemma sensor_reply_since_clap_witness :
  text (fst (onI2CRequest print_f1 5200 sample_data (repeat NUL 32)))
  = "T=23.5 H=45.0 P=1023 C=4"%string
  /\ clapSec (to_ulong (lastClapMs sample_data + 4200)) sample_data = 4
  /\ clapSec (to_ulong (lastClapMs sample_data + 2000000)) sample_data = -1
  /\ clapSec 5200 (mkData (S754_zero false) (S754_zero false) 0 0) = -1.
Proof.
  destruct (sensor_reply_since_clap print_f1 sample_data (repeat NUL 32))
    as (Hf & _ & Hc).
  destruct (sensor_reply_since_clap print_f1
              (mkData (S754_zero false) (S754_zero false) 0 0) (repeat NUL 32))
    as (_ & H0 & _).
  destruct (Hf 5200) as (_ & Ht).
  assert (Hpos : 0 < lastClapMs sample_data) by (vm_compute; reflexivity).
  assert (H1 : 0 <= 4200 < 2 ^ 32) by (change (2 ^ 32) with 4294967296; lia).
  assert (H2 : 0 <= 2000000 < 2 ^ 32)
    by (change (2 ^ 32) with 4294967296; lia).
  destruct (Hc Hpos 4200 H1) as (Hlt & _).
  destruct (Hc Hpos 2000000 H2) as (_ & Hge).
  split; [| split; [| split]].
  - rewrite Ht; [reflexivity | reflexivity | vm_compute; lia].
  - apply Hlt. lia.
  - apply Hge. lia.
  - apply H0. reflexivity.
Defined.

(** C3, as it is stated, fails once the millisecond counter has gone round:
    2^32 ms and 5 s after a clap, which is 1000 s and more, the reply still
    tells C=5, not C=-1. *)
Lemma clap_older_than_counter :
  1000 <= (2 ^ 32 + 5000) / 1000
  /\ clapSec (to_ulong (lastClapMs sample_data + (2 ^ 32 + 5000))) sample_data
     = 5
  /\ clapSec (to_ulong (lastClapMs sample_data + (2 ^ 32 + 5000))) sample_data
     <> -1
  /\ text (fst (onI2CRequest print_f1
                  (to_ulong (lastClapMs sample_data + (2 ^ 32 + 5000)))
                  sample_data (repeat NUL 32)))
     = "T=23.5 H=45.0 P=1023 C=5"%string.
Proof. vm_compute. repeat split; discriminate. Qed.

(** [now] is read before the mutex is taken: a clap recorded in between has
    [lastClapMs] after [now], and the reply tells -1. *)
Example clap_after_now_reads_none :
  lastClapMs sample_data = 1000 /\ clapSec 999 sample_data = -1.
Proof. split; reflexivity. Qed.

(** C10. A turn of the sensor task writes the shared temperature, humidity
    and light level when both DHT readings are numbers, and then only; when
    either is NaN the shared data, the light level with it, stay as they
    were.  The time of the last clap is never touched. *)
Theorem sensor_task_update h t p data :
  (isnan h = false -> isnan t = false ->
   SensorTask h t p data = mkData t h p (lastClapMs data))
  /\ (isnan h = true \/ isnan t = true -> SensorTask h t p data = data)
  /\ lastClapMs (SensorTask h t p data) = lastClapMs data.
Proof.
  unfold SensorTask.
  destruct (isnan h), (isnan t); cbn [negb andb];
    repeat split; trivial; try discriminate; intros [H|H]; discriminate.
Qed.

Lemma sensor_task_update_witness :
  SensorTask S754_nan (S754_finite false 47 (-1)) 2000 sample_data = sample_data
  /\ SensorTask (S754_finite false 50 0) (S754_finite false 47 (-1)) 2000
       sample_data
     = mkData (S754_finite false 47 (-1)) (S754_finite false 50 0) 2000 1000.
Proof.
  destruct (sensor_task_update S754_nan (S754_finite false 47 (-1)) 2000
              sample_data) as (_ & Hkeep & _).
  destruct (sensor_task_update (S754_finite false 50 0)
              (S754_finite false 47 (-1)) 2000 sample_data) as (Hupd & _ & _).
  split.
  - apply Hkeep. left. reflexivity.
  - apply Hupd; reflexivity.
Defined.

End SensorHubSpec.

(** ** The frames on the bus *)

Module BusSpec.
Import CStr CStrFacts.

(** C1, as the two peers have it.  Every frame of the sensor hub has exactly
    32 bytes, its text cut to 31 characters and padded with NULs.  A frame of
    the actuator board is its text and one NUL: as many bytes as the text has
    characters, plus one, 32 at most, never padded. *)
Theorem frame_sizes :
  (forall fmt now data resp,
     length (fst (SensorHub.onI2CRequest fmt now data resp))
     = SensorHub.I2C_BUF)
  /\ (forall s,
        fst (Executor.onI2CRequest s) = Executor.req_text s ++ [NUL]
        /\ length (fst (Executor.onI2CRequest s))
           = S (length (Executor.req_text s))
        /\ (length (fst (Executor.onI2CRequest s)) <= Executor.I2C_BUF)%nat
        /\ strlen (fst (Executor.onI2CRequest s))
           = length (Executor.req_text s)).
Proof.
  split.
  - intros. rewrite SensorHubSpec.frame_spec.
    apply SensorHubSpec.padded_length. rewrite length_firstn. lia.
  - intros s. rewrite ExecutorFacts.onI2CRequest_spec. cbn [fst].
    pose proof (ExecutorFacts.req_text_length s).
    pose proof (ExecutorFacts.req_text_no_nul s).
    unfold strlen. rewrite cstr_app_nul by assumption.
    rewrite length_app. cbn [length]. unfold Executor.I2C_BUF.
    repeat split; lia.
Qed.

(** C1, as it is stated, fails on the actuator board: the frame read before
    any command is the six bytes of READY and its NUL, not 32 bytes. *)
Lemma actuator_frame_not_32 :
  fst (Executor.onI2CRequest Executor.initial) = lit "READY" ++ [NUL]
  /\ length (fst (Executor.onI2CRequest Executor.initial)) = 6%nat
  /\ length (fst (Executor.onI2CRequest Executor.initial))
     <> Executor.I2C_BUF.
Proof. vm_compute. repeat split. discriminate. Qed.

End BusSpec.

(** ** The actuator board: the rest of the command handler *)

Module ExecutorMore.
Import CStr CStrFacts Dec DecFacts Executor ExecutorFacts.

(** [handleCommand] leaves the command buffer, [cmdReady] and the button
    state alone. *)
Lemma handleCommand_keeps s :
  i2cCmd (handleCommand s) = i2cCmd s
  /\ cmdReady (handleCommand s) = cmdReady s
  /\ btnEvent (handleCommand s) = btnEvent s
  /\ lastState (handleCommand s) = lastState s.
Proof.
  unfold handleCommand.
  repeat match goal with
         | |- context [if ?b then _ else _] => destruct b
         end; repeat split.
Qed.

Lemma handleCommand_stepper s :
  firstn 9 (cstr (i2cCmd s)) <> lit "SERVO SET" ->
  firstn 12 (cstr (i2cCmd s)) = lit "STEPPER MOVE" ->
  handleCommand s
  = set_resp
      (move_stepper (set_resp s (strcpy (i2cResp s) (lit "STEPPER BUSY")))
         (atoi (skipn 13 (i2cCmd s))))
      (strcpy (strcpy (i2cResp s) (lit "STEPPER BUSY")) (lit "OK STEPPER")).
Proof.
  intros H1 H2. unfold handleCommand.
  rewrite (prefix_false (lit "SERVO SET")) by trivial.
  now rewrite (prefix_true (lit "STEPPER MOVE")).
Qed.

(** The command buffer once [rx] is received: the bytes, a NUL, and what
    the buffer held before from there on. *)
Lemma received_buffer rx s :
  wf s -> (length rx <= 31)%nat ->
  i2cCmd (onI2CReceive rx s) = rx ++ NUL :: skipn (S (length rx)) (i2cCmd s).
Proof.
  intros [Hc _] Hlen. unfold onI2CReceive.
  rewrite recv_buf_spec by assumption.
  rewrite Nat.min_l by assumption. now rewrite firstn_all.
Qed.

Lemma to_int_range z : INT_MIN <= to_int z <= INT_MAX.
Proof.
  unfold to_int, INT_MIN, INT_MAX.
  pose proof (Z.mod_pos_bound (z + 32768) 65536 eq_refl). lia.
Qed.

Lemma constrain_range x : 0 <= constrain x 0 180 <= 180.
Proof.
  unfold constrain.
  destruct (Z.ltb_spec x 0); [lia|]. destruct (Z.gtb_spec x 180); lia.
Qed.

Lemma stepper_move_fits n :
  INT_MIN <= n <= INT_MAX ->
  no_nul (stepper_move n) = true /\ (length (stepper_move n) <= 31)%nat.
Proof.
  unfold INT_MIN, INT_MAX, stepper_move. intros H. split.
  - rewrite no_nul_app, dec_no_nul. reflexivity.
  - rewrite length_app. change (length (lit "STEPPER MOVE ")) with 13%nat.
    destruct (Z.ltb_spec n 0).
    + pose proof (dec_length_neg n 4). change (10 ^ Z.of_nat 5) with 100000 in *.
      lia.
    + pose proof (dec_length n 4). change (10 ^ Z.of_nat 5) with 100000 in *.
      lia.
Qed.

(** X1. STEPPER MOVE n, for an n the board's int holds, is answered
    OK STEPPER, gives n steps to the motor and adds n to the stepper
    position, exactly so when the sum stays in the int; the servo and the
    relay are left alone. *)
Theorem stepper_move_adds n s :
  wf s -> INT_MIN <= n <= INT_MAX ->
  let s1 := exec (stepper_move n) s in
  resp_text s1 = "OK STEPPER"%string
  /\ shaft s1 = shaft s + n
  /\ stepperPos s1 = to_int (stepperPos s + n)
  /\ (INT_MIN <= stepperPos s + n <= INT_MAX ->
      stepperPos s1 = stepperPos s + n)
  /\ servoPos s1 = servoPos s /\ servoOut s1 = servoOut s
  /\ relayState s1 = relayState s /\ relayPin s1 = relayPin s.
Proof.
  intros Hwf Hn s1. subst s1.
  destruct (stepper_move_fits n Hn) as [Hnn Hlen].
  destruct (exec_as_handle _ s Hwf Hnn Hlen)
    as (s0 & tail & E & Hwf0 & Ebuf & Etxt & F).
  destruct F as (_ & F2 & F3 & F4 & _ & _ & F7 & F8 & F9).
  rewrite E. clear E.
  rewrite handleCommand_stepper;
    [| rewrite Etxt; intros X; vm_compute in X; discriminate X
     | rewrite Etxt; reflexivity].
  rewrite Ebuf.
  change (skipn 13 (stepper_move n ++ NUL :: tail)) with (dec n ++ NUL :: tail).
  unfold atoi. rewrite parse_dec by reflexivity.
  rewrite to_int_small by assumption.
  unfold resp_text.
  cbn [set_resp move_stepper i2cResp servoPos stepperPos relayState shaft
       servoOut relayPin].
  rewrite text_strcpy_lit by reflexivity.
  rewrite F2, F3, F4, F7, F8, F9.
  repeat split. intros Hr. now apply to_int_small.
Qed.

Lemma stepper_move_adds_witness :
  stepperPos (exec (stepper_move (-512)) (exec (stepper_move 2048) initial))
  = 1536.
Proof.
  assert (H2 : INT_MIN <= -512 <= INT_MAX) by (unfold INT_MIN, INT_MAX; lia).
  destruct (stepper_move_adds (-512) (exec (stepper_move 2048) initial))
    as (_ & _ & _ & Hp & _); [vm_compute; split; reflexivity | exact H2 |].
  rewrite Hp; [reflexivity |].
  vm_compute. split; discriminate.
Defined.

(** X2. A command that begins with SERVO SET, whatever follows these nine
    characters, is taken for a servo command: it is answered OK SERVO, the
    servo is written a position between 0 and 180, and the stepper and the
    relay are left alone. *)
Theorem servo_prefix_accepted s :
  starts_with "SERVO SET" (cmd_chars s) ->
  let s1 := handleCommand s in
  resp_text s1 = "OK SERVO"%string
  /\ servoPos s1 = constrain (atoi (skipn 10 (i2cCmd s))) 0 180
  /\ 0 <= servoPos s1 <= 180
  /\ servoOut s1 = servoPos s1
  /\ stepperPos s1 = stepperPos s /\ shaft s1 = shaft s
  /\ relayState s1 = relayState s /\ relayPin s1 = relayPin s.
Proof.
  intros H s1. subst s1. rewrite handleCommand_servo by exact H.
  unfold resp_text.
  cbn [set_resp set_servo i2cResp servoPos servoOut stepperPos shaft
       relayState relayPin].
  rewrite text_strcpy_lit by reflexivity.
  repeat split; apply constrain_range.
Qed.

Lemma servo_prefix_accepted_witness :
  resp_text (exec (lit "SERVO SETTLE") initial) = "OK SERVO"%string
  /\ servoPos (exec (lit "SERVO SETTLE") initial) = 0.
Proof.
  pose (s := set_ready (onI2CReceive (lit "SERVO SETTLE") initial) false).
  assert (H : starts_with "SERVO SET" (cmd_chars s)) by reflexivity.
  destruct (servo_prefix_accepted s H) as (Hr & Hp & _).
  split; [exact Hr |].
  change (servoPos (handleCommand s) = 0). rewrite Hp. reflexivity.
Defined.

(** X3. SERVO SET without a number takes its number from what the command
    before left in the buffer: after SERVO SET m, a bare SERVO SET is
    answered OK SERVO and sets the servo as SERVO SET m did. *)
Theorem servo_set_bare_reuses m s :
  wf s -> INT_MIN <= m <= INT_MAX ->
  let s1 := exec (servo_set m) s in
  let s2 := exec (lit "SERVO SET") s1 in
  resp_text s2 = "OK SERVO"%string
  /\ servoPos s2 = constrain m 0 180
  /\ servoPos s2 = servoPos s1.
Proof.
  intros Hwf Hm. cbv zeta.
  destruct (exec_servo_set m s Hwf Hm) as (Hwf1 & Hp1 & _).
  destruct (servo_set_fits m Hm) as [Hnn Hlen].
  destruct (exec_as_handle _ s Hwf Hnn Hlen)
    as (s0 & tail & E & Hwf0 & Ebuf & _ & _).
  assert (Hbuf : i2cCmd (exec (servo_set m) s) = servo_set m ++ NUL :: tail).
  { rewrite E. destruct (handleCommand_keeps s0) as (K & _). now rewrite K. }
  clear E Ebuf Hwf0 s0.
  revert Hwf1 Hp1 Hbuf. generalize (exec (servo_set m) s) as s1.
  intros s1 Hwf1 Hp1 Hbuf.
  assert (Hrec : i2cCmd (set_ready (onI2CReceive (lit "SERVO SET") s1) false)
                 = lit "SERVO SET" ++ NUL :: dec m ++ NUL :: tail).
  { cbn [set_ready set_cmd i2cCmd].
    rewrite received_buffer by (trivial; cbn; lia).
    rewrite Hbuf. reflexivity. }
  unfold exec.
  assert (Hpre : starts_with "SERVO SET"
                   (cmd_chars (set_ready (onI2CReceive (lit "SERVO SET") s1) false))).
  { unfold starts_with, cmd_chars. rewrite Hrec.
    rewrite cstr_app_nul by reflexivity. reflexivity. }
  destruct (servo_prefix_accepted _ Hpre) as (Hr & Hp & _).
  rewrite Hr, Hp, Hrec, Hp1.
  change (skipn 10 (lit "SERVO SET" ++ NUL :: dec m ++ NUL :: tail))
    with (dec m ++ NUL :: tail).
  unfold atoi. rewrite parse_dec by reflexivity.
  rewrite to_int_small by assumption.
  repeat split.
Qed.

Lemma servo_set_bare_reuses_witness :
  servoPos (exec (lit "SERVO SET") (exec (servo_set 123) initial)) = 123.
Proof.
  assert (Hm : INT_MIN <= 123 <= INT_MAX) by (unfold INT_MIN, INT_MAX; lia).
  destruct (servo_set_bare_reuses 123 initial wf_initial Hm) as (_ & Hp & _).
  exact Hp.
Defined.

Lemma parse_not_number t rest :
  not_number t = true -> parse (t ++ NUL :: rest) = 0.
Proof.
  unfold parse. destruct t as [|c t]; intros H.
  - reflexivity.
  - cbn [not_number] in H. apply negb_true_iff in H.
    apply orb_false_iff in H as [H Hp]. apply orb_false_iff in H as [H Hm].
    apply orb_false_iff in H as [Hd Hs].
    cbn [app skip_spaces]. rewrite Hs, Hm, Hp.
    cbn [accum]. now rewrite Hd.
Qed.

(** X4. SERVO SET followed by something that is not a number is not
    refused: it is answered OK SERVO and the servo goes to 0. *)
Theorem servo_set_not_a_number t s :
  wf s -> no_nul t = true -> (length t <= 21)%nat -> not_number t = true ->
  let s1 := exec (lit "SERVO SET " ++ t) s in
  resp_text s1 = "OK SERVO"%string /\ servoPos s1 = 0 /\ servoOut s1 = 0.
Proof.
  intros Hwf Hn Hl Ht s1. subst s1.
  destruct (exec_as_handle (lit "SERVO SET " ++ t) s Hwf)
    as (s0 & tail & E & _ & Ebuf & Etxt & _).
  { now rewrite no_nul_app, Hn. }
  { rewrite length_app. change (length (lit "SERVO SET ")) with 10%nat. lia. }
  rewrite E. clear E.
  assert (Hpre : starts_with "SERVO SET" (cmd_chars s0)).
  { unfold starts_with, cmd_chars. rewrite Etxt. reflexivity. }
  destruct (servo_prefix_accepted s0 Hpre) as (Hr & Hp & _ & Ho & _).
  rewrite Ho, Hr, Hp, Ebuf.
  change (skipn 10 ((lit "SERVO SET " ++ t) ++ NUL :: tail))
    with (t ++ NUL :: tail).
  unfold atoi. rewrite parse_not_number by assumption.
  repeat split.
Qed.

Lemma servo_set_not_a_number_witness :
  servoPos (exec (lit "SERVO SET half") initial) = 0.
Proof.
  destruct (servo_set_not_a_number (lit "half") initial wf_initial eq_refl)
    as (_ & Hp & _); [cbn; lia | reflexivity |].
  exact Hp.
Defined.

Lemma status_text_no_nul v r p : no_nul (status_text v r p) = true.
Proof.
  unfold status_text. rewrite !no_nul_app, !dec_no_nul. now destruct r.
Qed.

(** X5. STATUS only reads: the positions, the relay, what was written to
    the devices and the button event stay as they were, and STATUS right
    after STATUS gives the same answer. *)
Theorem status_reads_only s :
  wf s ->
  let s1 := exec (lit "STATUS") s in
  let s2 := exec (lit "STATUS") s1 in
  servoPos s1 = servoPos s /\ stepperPos s1 = stepperPos s
  /\ relayState s1 = relayState s
  /\ servoOut s1 = servoOut s /\ relayPin s1 = relayPin s
  /\ shaft s1 = shaft s /\ btnEvent s1 = btnEvent s
  /\ cstr (i2cResp s2) = cstr (i2cResp s1).
Proof.
  intros Hwf. cbv zeta.
  destruct (exec_status s Hwf) as (Hwf1 & Ht1 & Hp1 & Hst1 & Hre1 & Hb1 & _).
  destruct (exec_as_handle (lit "STATUS") s Hwf eq_refl)
    as (s0 & tail & E & _ & _ & Etxt & F).
  { cbn. lia. }
  destruct F as (_ & _ & _ & _ & _ & _ & F7 & F8 & F9).
  assert (Hdev : servoOut (exec (lit "STATUS") s) = servoOut s
                 /\ relayPin (exec (lit "STATUS") s) = relayPin s
                 /\ shaft (exec (lit "STATUS") s) = shaft s).
  { rewrite E, handleCommand_status by assumption.
    cbn [set_resp servoOut relayPin shaft]. now rewrite F7, F8, F9. }
  clear E Etxt F7 F8 F9 s0 tail.
  revert Hwf1 Ht1 Hp1 Hst1 Hre1 Hb1 Hdev.
  generalize (exec (lit "STATUS") s) as s1.
  intros s1 Hwf1 Ht1 Hp1 Hst1 Hre1 Hb1 (Ho & Hrp & Hsh).
  destruct (exec_status s1 Hwf1) as (_ & Ht2 & _).
  rewrite Ht2, Ht1, Hp1, Hst1, Hre1.
  repeat split; assumption.
Qed.

Lemma status_reads_only_witness :
  servoPos (exec (lit "STATUS") initial) = 90
  /\ relayState (exec (lit "STATUS") initial) = false.
Proof.
  destruct (status_reads_only initial wf_initial)
    as (Hp & _ & Hr & _).
  exact (conj Hp Hr).
Defined.

Lemma handleCommand_resp s :
  let t := cstr (i2cResp (handleCommand s)) in
  t = lit "OK SERVO" \/ t = lit "OK STEPPER" \/ t = lit "OK RELAY ON"
  \/ t = lit "OK RELAY OFF" \/ t = lit "ERR CMD"
  \/ t = firstn 31 (status_text (servoPos s) (relayState s) (stepperPos s)).
Proof.
  cbv zeta. unfold handleCommand.
  destruct (strncmp0 (i2cCmd s) (lit "SERVO SET") 9).
  { left. cbn [set_resp set_servo i2cResp]. apply cstr_strcpy. }
  destruct (strncmp0 (i2cCmd s) (lit "STEPPER MOVE") 12).
  { right; left. cbn [set_resp move_stepper i2cResp]. apply cstr_strcpy. }
  destruct (strcmp0 (i2cCmd s) (lit "RELAY ON")).
  { do 2 right; left. cbn [set_resp set_relay i2cResp]. apply cstr_strcpy. }
  destruct (strcmp0 (i2cCmd s) (lit "RELAY OFF")).
  { do 3 right; left. cbn [set_resp set_relay i2cResp]. apply cstr_strcpy. }
  destruct (strcmp0 (i2cCmd s) (lit "STATUS")).
  - do 5 right. cbn [set_resp i2cResp]. change I2C_BUF with 32%nat.
    apply cstr_snprintf, status_text_no_nul.
  - do 4 right; left. cbn [set_resp i2cResp]. apply cstr_strcpy.
Qed.

(** X6. Every command is answered: after [handleCommand] the response is
    one of the five fixed texts or the STATUS line of the state before, cut
    to 31 characters; nothing of the response before is left. *)
Theorem every_command_answered s :
  let t := cstr (i2cResp (handleCommand s)) in
  t = lit "OK SERVO" \/ t = lit "OK STEPPER" \/ t = lit "OK RELAY ON"
  \/ t = lit "OK RELAY OFF" \/ t = lit "ERR CMD"
  \/ t = firstn 31 (status_text (servoPos s) (relayState s) (stepperPos s)).
Proof. exact (handleCommand_resp s). Qed.

Lemma is_digit_not_plus c : is_digit c = true -> Ascii.eqb c "+" = false.
Proof.
  intros H. destruct (Ascii.eqb_spec c "+") as [->|]; trivial.
  discriminate H.
Qed.

Lemma digits_no_plus l : forallb is_digit l = true -> no_plus l = true.
Proof.
  induction l as [|c l IH]; cbn [forallb no_plus]; trivial.
  intros H. apply andb_true_iff in H as [Hc Hl].
  rewrite (is_digit_not_plus c Hc). now apply IH.
Qed.

Lemma dec_no_plus n : no_plus (dec n) = true.
Proof.
  unfold dec. destruct (n <? 0).
  - change (no_plus ("-"%char :: ?l)) with (no_plus l).
    apply digits_no_plus, digits_all.
  - apply digits_no_plus, digits_all.
Qed.

Lemma no_plus_app l1 l2 : no_plus (l1 ++ l2) = no_plus l1 && no_plus l2.
Proof. apply forallb_app. Qed.

Lemma no_plus_firstn n l : no_plus l = true -> no_plus (firstn n l) = true.
Proof.
  revert n; induction l as [|c l IH]; intros [|n] H;
    cbn [firstn no_plus forallb] in *; trivial.
  apply andb_true_iff in H as [Hc Hl]. rewrite Hc. now apply IH.
Qed.

Lemma status_text_no_plus v r p : no_plus (status_text v r p) = true.
Proof.
  unfold status_text. rewrite !no_plus_app, !dec_no_plus. now destruct r.
Qed.

(** The response after [handleCommand] is short and has no plus sign. *)
Lemma handleCommand_resp_shape s :
  (strlen (i2cResp (handleCommand s)) <= 31)%nat
  /\ no_plus (cstr (i2cResp (handleCommand s))) = true.
Proof.
  unfold strlen.
  destruct (handleCommand_resp s) as [E|[E|[E|[E|[E|E]]]]];
    rewrite E; try (split; [cbn; lia | reflexivity]).
  split; [rewrite length_firstn; lia |].
  apply no_plus_firstn, status_text_no_plus.
Qed.

Lemma handleCommand_devices s :
  0 <= servoPos s <= 180 -> servoOut s = servoPos s ->
  relayPin s = relayState s -> INT_MIN <= stepperPos s <= INT_MAX ->
  0 <= servoPos (handleCommand s) <= 180
  /\ servoOut (handleCommand s) = servoPos (handleCommand s)
  /\ relayPin (handleCommand s) = relayState (handleCommand s)
  /\ INT_MIN <= stepperPos (handleCommand s) <= INT_MAX.
Proof.
  intros H1 H2 H3 H4. unfold handleCommand.
  repeat match goal with
         | |- context [if ?b then _ else _] => destruct b
         end;
    cbn [set_resp set_servo set_relay move_stepper servoPos servoOut relayPin
         relayState stepperPos];
    repeat split; trivial; try apply constrain_range; try apply to_int_range;
    apply H1 || apply H4.
Qed.

Lemma inv_handleCommand s : inv s -> inv (handleCommand s).
Proof.
  intros (Hwf & H1 & H2 & H3 & H4 & _ & _ & H7).
  destruct (handleCommand_devices s H1 H2 H3 H4) as (D1 & D2 & D3 & D4).
  destruct (handleCommand_resp_shape s) as (R1 & R2).
  destruct (handleCommand_keeps s) as (K & _).
  unfold inv. rewrite K.
  repeat split; trivial; try apply (wf_handleCommand s Hwf);
    apply D1 || apply D4.
Qed.

Lemma inv_set_ready s b : inv s -> inv (set_ready s b).
Proof. intros H. exact H. Qed.

Lemma inv_handleButton pin s : inv s -> inv (handleButton pin s).
Proof. intros H. exact H. Qed.

Lemma inv_loop pin s : inv s -> inv (loop pin s).
Proof.
  intros H. unfold loop. apply inv_handleButton.
  destruct (cmdReady s); trivial.
  now apply inv_handleCommand, inv_set_ready.
Qed.

Lemma inv_onI2CReceive rx s : inv s -> inv (onI2CReceive rx s).
Proof.
  intros (Hwf & H1 & H2 & H3 & H4 & H5 & H6 & H7).
  pose proof (wf_onI2CReceive rx s Hwf) as Hwf'.
  assert (Hlast : nth_error (i2cCmd (onI2CReceive rx s)) 31 = Some NUL).
  { destruct Hwf as [Hc _]. unfold onI2CReceive.
    rewrite recv_buf_spec by assumption. cbn [set_cmd i2cCmd].
    set (k := Nat.min (length rx) 31).
    assert (Hk : length (firstn k rx) = k)
      by (rewrite length_firstn; subst k; lia).
    assert (Hk31 : (k <= 31)%nat) by (subst k; lia).
    rewrite nth_error_app2 by lia. rewrite Hk.
    destruct (Nat.eq_dec k 31) as [->|Hne].
    - reflexivity.
    - replace (31 - k)%nat with (S (30 - k)) by lia.
      cbn [nth_error]. rewrite nth_error_skipn.
      now replace (S k + (30 - k))%nat with 31%nat by lia. }
  revert Hwf' Hlast. unfold inv, onI2CReceive.
  destruct (recv_buf rx (i2cCmd s)) as [[i b] ok].
  cbn [set_cmd i2cCmd i2cResp servoPos servoOut relayPin relayState stepperPos].
  intros Hwf' Hlast.
  repeat split; trivial; try apply Hwf'; apply H1 || apply H4.
Qed.

Lemma inv_onI2CRequest s : inv s -> inv (snd (onI2CRequest s)).
Proof.
  intros H. rewrite onI2CRequest_spec. cbn [snd].
  destruct (btnEvent s); exact H.
Qed.

Lemma inv_initial : inv initial.
Proof.
  unfold inv. repeat split; try reflexivity; vm_compute; try discriminate.
  all: lia.
Qed.

Lemma run_snd e es s : snd (run (e :: es) s) = snd (run es (snd (step e s))).
Proof.
  cbn [run]. destruct (step e s) as [out s1]. cbn [snd].
  now destruct (run es s1).
Qed.

Lemma inv_step e s : inv s -> inv (snd (step e s)).
Proof.
  intros H. destruct e as [rx| |pin]; cbn [step].
  - now apply inv_onI2CReceive.
  - pose proof (inv_onI2CRequest s H) as H'.
    now destruct (onI2CRequest s).
  - now apply inv_loop.
Qed.

Lemma inv_run es : forall s, inv s -> inv (snd (run es s)).
Proof.
  induction es as [|e es IH]; intros s H; [exact H|].
  rewrite run_snd. now apply IH, inv_step.
Qed.

(** X7. Whatever the master sends and whenever it reads, and whatever the
    button does: the two buffers keep their 32 bytes (no handler writes past
    their end), the last byte of the command buffer is NUL, the response is
    a text of at most 31 characters, the servo position is between 0 and 180
    and is what the servo was last written, the relay pin is at the level of
    the relay state, and the stepper position is in the int. *)
Theorem reachable_invariant es :
  let s := snd (run es initial) in
  length (i2cCmd s) = I2C_BUF /\ length (i2cResp s) = I2C_BUF
  /\ nth_error (i2cCmd s) 31 = Some NUL
  /\ (strlen (i2cResp s) <= 31)%nat
  /\ 0 <= servoPos s <= 180 /\ servoOut s = servoPos s
  /\ relayPin s = relayState s
  /\ INT_MIN <= stepperPos s <= INT_MAX.
Proof.
  cbv zeta.
  destruct (inv_run es initial inv_initial)
    as ((W1 & W2) & H1 & H2 & H3 & H4 & H5 & _ & H7).
  repeat split; trivial; apply H1 || apply H4.
Qed.

(** X8. A frame read while no button event is pending, in any state the
    board can reach, is the response text and its NUL, holds no plus sign,
    hence nothing of the marker, and the read changes nothing. *)
Theorem no_marker_without_event es :
  let s := snd (run es initial) in
  btnEvent s = false ->
  fst (onI2CRequest s) = cstr (i2cResp s) ++ [NUL]
  /\ no_plus (fst (onI2CRequest s)) = true
  /\ snd (onI2CRequest s) = s.
Proof.
  cbv zeta. intros Hb.
  destruct (inv_run es initial inv_initial)
    as (_ & _ & _ & _ & _ & H5 & H6 & _).
  revert Hb H5 H6. generalize (snd (run es initial)) as s.
  intros s Hb H5 H6. unfold strlen in H5.
  rewrite onI2CRequest_spec. unfold req_text. rewrite Hb.
  change (I2C_BUF - 1)%nat with 31%nat.
  rewrite firstn_all2, app_nil_r by assumption. cbn [fst snd].
  repeat split. now rewrite no_plus_app, H6.
Qed.

Lemma no_marker_without_event_witness :
  fst (onI2CRequest
         (snd (run [Receive (lit "RELAY ON"); Loop false; Request;
                    Receive (lit "STATUS"); Loop false] initial)))
  = lit "SERVO=90 RELAY=ON STEPPER=0" ++ [NUL].
Proof.
  destruct (no_marker_without_event
              [Receive (lit "RELAY ON"); Loop false; Request;
               Receive (lit "STATUS"); Loop false]) as (Hf & _ & _).
  - reflexivity.
  - rewrite Hf. reflexivity.
Defined.

Lemma ack_is_short s :
  ~ is_verb "STATUS" (cmd_chars s) ->
  (strlen (i2cResp (handleCommand s)) <= 12)%nat.
Proof.
  intros H. unfold strlen, handleCommand.
  destruct (strncmp0 (i2cCmd s) (lit "SERVO SET") 9);
    [cbn [set_resp i2cResp]; rewrite cstr_strcpy; cbn; lia|].
  destruct (strncmp0 (i2cCmd s) (lit "STEPPER MOVE") 12);
    [cbn [set_resp i2cResp]; rewrite cstr_strcpy; cbn; lia|].
  destruct (strcmp0 (i2cCmd s) (lit "RELAY ON"));
    [cbn [set_resp i2cResp]; rewrite cstr_strcpy; cbn; lia|].
  destruct (strcmp0 (i2cCmd s) (lit "RELAY OFF"));
    [cbn [set_resp i2cResp]; rewrite cstr_strcpy; cbn; lia|].
  destruct (strcmp0 (i2cCmd s) (lit "STATUS")) eqn:E.
  - elim H. now apply (strcmp0_text (lit "STATUS")).
  - cbn [set_resp i2cResp]. rewrite cstr_strcpy. cbn. lia.
Qed.

(** X9. A button event pending while a command other than STATUS is handled
    is delivered whole and once: the frame read next is the answer followed
    by the marker, the event is cleared by this read, and the frame read
    after it is the answer alone. *)
Theorem event_delivered_with_ack s :
  ~ is_verb "STATUS" (cmd_chars s) -> btnEvent s = true ->
  let s1 := handleCommand s in
  let s2 := snd (onI2CRequest s1) in
  fst (onI2CRequest s1) = cstr (i2cResp s1) ++ BTN_MARK ++ [NUL]
  /\ btnEvent s2 = false
  /\ fst (onI2CRequest s2) = cstr (i2cResp s1) ++ [NUL].
Proof.
  intros Hv Hb. cbv zeta.
  pose proof (ack_is_short s Hv) as Hl.
  destruct (handleCommand_keeps s) as (_ & _ & Kb & _). rewrite Hb in Kb.
  revert Hl Kb. generalize (handleCommand s) as s1. intros s1 Hl Kb.
  unfold strlen in Hl.
  rewrite !onI2CRequest_spec. rewrite Kb. cbn [fst snd].
  unfold req_text at 1. rewrite Kb. change (I2C_BUF - 1)%nat with 31%nat.
  rewrite (firstn_all2 (n := 31)) by lia.
  rewrite firstn_all2 by (change (length BTN_MARK) with 13%nat; lia).
  unfold req_text. cbn [set_button btnEvent i2cResp].
  change (I2C_BUF - 1)%nat with 31%nat.
  rewrite (firstn_all2 (n := 31)) by lia.
  rewrite app_nil_r, <- app_assoc. repeat split.
Qed.

Lemma event_delivered_with_ack_witness :
  text (fst (onI2CRequest
               (exec (lit "RELAY ON") (handleButton false initial))))
  = "OK RELAY ON +BTN PRESSED"%string.
Proof.
  pose (s := set_ready
               (onI2CReceive (lit "RELAY ON") (handleButton false initial))
               false).
  assert (Hv : ~ is_verb "STATUS" (cmd_chars s)) by lit_neq.
  assert (Hb : btnEvent s = true) by reflexivity.
  destruct (event_delivered_with_ack s Hv Hb) as (Hf & _ & _).
  change (text (fst (onI2CRequest (handleCommand s)))
          = "OK RELAY ON +BTN PRESSED"%string).
  rewrite Hf. reflexivity.
Defined.

Lemma dec_length_pos n : (1 <= length (dec n))%nat.
Proof.
  pose proof (dec_not_nil n). destruct (dec n); [congruence | cbn; lia].
Qed.

Lemma status_text_long v r p : (26 <= length (status_text v r p))%nat.
Proof.
  unfold status_text. rewrite !length_app.
  pose proof (dec_length_pos v). pose proof (dec_length_pos p).
  change (length (lit "SERVO=")) with 6%nat.
  change (length (lit " RELAY=")) with 7%nat.
  change (length (lit " STEPPER=")) with 9%nat.
  destruct r; cbn [length lit list_ascii_of_string]; lia.
Qed.

(** X10. A button event pending while STATUS is handled is never delivered
    whole: the answer has 26 characters at least, so the frame read next
    carries five characters of the marker at most, and the read clears the
    event all the same. *)
Theorem event_cut_with_status s :
  wf s -> btnEvent s = true ->
  let s1 := exec (lit "STATUS") s in
  (26 <= strlen (i2cResp s1) <= 31)%nat
  /\ (exists k, (k <= 5)%nat /\
       fst (onI2CRequest s1)
       = cstr (i2cResp s1) ++ firstn k BTN_MARK ++ [NUL])
  /\ btnEvent (snd (onI2CRequest s1)) = false.
Proof.
  intros Hwf Hb. cbv zeta.
  destruct (exec_status s Hwf) as (_ & Ht & _ & _ & _ & Hb1 & _).
  rewrite Hb in Hb1.
  pose proof (status_text_long (servoPos s) (relayState s) (stepperPos s)) as Hl.
  revert Ht Hb1. generalize (exec (lit "STATUS") s) as s1. intros s1 Ht Hb1.
  assert (Hlen : (26 <= length (cstr (i2cResp s1)) <= 31)%nat)
    by (rewrite Ht, length_firstn; lia).
  split; [exact Hlen|]. split.
  - exists (31 - length (cstr (i2cResp s1)))%nat. split; [lia|].
    rewrite onI2CRequest_spec. cbn [fst]. unfold req_text. rewrite Hb1.
    change (I2C_BUF - 1)%nat with 31%nat.
    rewrite (firstn_all2 (n := 31)) by lia.
    now rewrite <- app_assoc.
  - rewrite onI2CRequest_spec. cbn [snd]. now rewrite Hb1.
Qed.

Lemma event_cut_with_status_witness :
  text (fst (onI2CRequest
               (exec (lit "STATUS") (handleButton false initial))))
  = "SERVO=90 RELAY=OFF STEPPER=0 +B"%string.
Proof.
  destruct (event_cut_with_status (handleButton false initial))
    as (_ & (k & _ & Hf) & _); [exact wf_initial | reflexivity |].
  reflexivity.
Defined.

Lemma loop_button pin s :
  btnEvent (loop pin s) = (lastState s && negb pin) || btnEvent s
  /\ lastState (loop pin s) = pin.
Proof.
  unfold loop.
  assert (K : btnEvent (if cmdReady s then handleCommand (set_ready s false)
                        else s) = btnEvent s
              /\ lastState (if cmdReady s then handleCommand (set_ready s false)
                            else s) = lastState s).
  { destruct (cmdReady s); [|split; reflexivity].
    destruct (handleCommand_keeps (set_ready s false)) as (_ & _ & Kb & Kl).
    split; assumption. }
  destruct K as [Kb Kl].
  cbn [handleButton set_button btnEvent lastState]. rewrite Kb, Kl.
  split; [|reflexivity].
  destruct (lastState s && negb pin); reflexivity.
Qed.

Lemma last_cons_default {A} (l : list A) : forall b d d',
  last (b :: l) d = last (b :: l) d'.
Proof.
  induction l as [|c l IH]; intros b d d'; [reflexivity|].
  change (last (b :: c :: l) d) with (last (c :: l) d).
  change (last (b :: c :: l) d') with (last (c :: l) d').
  apply IH.
Qed.

Lemma loops_button pins : forall s,
  btnEvent (loops pins s) = btnEvent s || falling (lastState s) pins
  /\ lastState (loops pins s) = last pins (lastState s).
Proof.
  induction pins as [|p pins IH]; intros s.
  - cbn [loops fold_left falling last]. now rewrite orb_false_r.
  - change (loops (p :: pins) s) with (loops pins (loop p s)).
    destruct (IH (loop p s)) as [Hb Hl].
    destruct (loop_button p s) as [Lb Ll].
    rewrite Hb, Hl, Lb, Ll. split.
    + cbn [falling]. destruct (lastState s && negb p), (btnEvent s); reflexivity.
    + destruct pins as [|b pins]; [reflexivity|].
      change (last (p :: b :: pins) (lastState s))
        with (last (b :: pins) (lastState s)).
      apply last_cons_default.
Qed.

(** X11. Over any number of turns of [loop], whatever commands are handled
    meanwhile, a button event is pending afterwards exactly when one was
    pending before or a HIGH reading of the button was followed by a LOW
    one; a level alone raises nothing. *)
Theorem button_event_is_falling_edge pins s :
  btnEvent (loops pins s) = btnEvent s || falling (lastState s) pins
  /\ lastState (loops pins s) = last pins (lastState s).
Proof. apply loops_button. Qed.

Lemma falling_held n : falling false (repeat false n) = false.
Proof. induction n as [|n IH]; cbn [repeat falling]; trivial. Qed.

Lemma last_repeat {A} (x d : A) n : last (repeat x (S n)) d = x.
Proof.
  induction n as [|n IH]; [reflexivity|].
  change (repeat x (S (S n))) with (x :: repeat x (S n)).
  change (repeat x (S n)) with (x :: repeat x n) at 1.
  cbn [last]. exact IH.
Qed.

(** X12. A button that is held down is reported once: after the press and
    the read that delivers it, any number of turns of [loop] with the button
    still down leave no event pending. *)
Theorem held_button_reported_once n m s :
  let s1 := loops (false :: repeat false n) s in
  let s2 := snd (onI2CRequest s1) in
  btnEvent (loops (repeat false m) s2) = false.
Proof.
  cbv zeta.
  destruct (loops_button (false :: repeat false n) s) as [_ Hl].
  change (false :: repeat false n) with (repeat false (S n)) in *.
  rewrite last_repeat in Hl.
  revert Hl. generalize (loops (repeat false (S n)) s) as s1. intros s1 Hl.
  destruct (loops_button (repeat false m) (snd (onI2CRequest s1))) as [Hb _].
  rewrite Hb. clear Hb.
  rewrite onI2CRequest_spec. cbn [snd].
  destruct (btnEvent s1) eqn:E;
    cbn [set_button btnEvent lastState]; rewrite ?E, Hl, falling_held;
    reflexivity.
Qed.

Lemma loops_idle pins : forall s,
  cmdReady s = false -> loops pins s = buttons pins s.
Proof.
  induction pins as [|p pins IH]; intros s H; [reflexivity|].
  change (loops (p :: pins) s) with (loops pins (loop p s)).
  change (buttons (p :: pins) s) with (buttons pins (handleButton p s)).
  unfold loop. rewrite H. apply IH. exact H.
Qed.

(** X13. A received command is handled in the next turn of [loop] and in no
    later one: the turns after a reception are one [handleCommand] and then
    the reading of the button only. *)
Theorem command_handled_once rx p pins s :
  loops (p :: pins) (onI2CReceive rx s) = buttons (p :: pins) (exec rx s)
  /\ cmdReady (loops (p :: pins) (onI2CReceive rx s)) = false.
Proof.
  change (loops (p :: pins) (onI2CReceive rx s))
    with (loops pins (loop p (onI2CReceive rx s))).
  rewrite loop_after_receive.
  assert (H : cmdReady (handleButton p (exec rx s)) = false).
  { cbn [handleButton set_button cmdReady]. unfold exec.
    destruct (handleCommand_keeps (set_ready (onI2CReceive rx s) false))
      as (_ & K & _).
    rewrite K. reflexivity. }
  rewrite loops_idle by exact H.
  split; [reflexivity|].
  revert H. generalize (handleButton p (exec rx s)) as s1. clear.
  induction pins as [|q pins IH]; intros s1 H; [exact H|].
  change (buttons (q :: pins) s1) with (buttons pins (handleButton q s1)).
  apply IH. exact H.
Qed.

(** X14. What the board puts on the bus is made of the text of the response
    and of the button event alone: bytes that an earlier, longer response
    left after the NUL never reach the master. *)
Theorem frame_from_text_only s s' :
  cstr (i2cResp s) = cstr (i2cResp s') -> btnEvent s = btnEvent s' ->
  fst (onI2CRequest s) = fst (onI2CRequest s').
Proof.
  intros Ht Hb. rewrite !onI2CRequest_spec. cbn [fst].
  unfold req_text. now rewrite Ht, Hb.
Qed.

Lemma frame_from_text_only_witness :
  i2cResp (exec (stepper_move 5) initial)
  <> i2cResp (set_resp initial (blit (lit "OK STEPPER") (repeat NUL 32)))
  /\ fst (onI2CRequest (exec (stepper_move 5) initial))
     = fst (onI2CRequest
              (set_resp initial (blit (lit "OK STEPPER") (repeat NUL 32)))).
Proof.
  split.
  - intros E. vm_compute in E. discriminate E.
  - apply frame_from_text_only; reflexivity.
Defined.

End ExecutorMore.

(** ** The sensor hub: the tasks and the reply together *)

Module SensorHubMore.
Import CStr CStrFacts Dec DecFacts SensorHub SensorHubSpec.

Lemma clapSec_after t2 d data :
  0 < t2 -> lastClapMs data = t2 ->
  let secs := (d mod 2 ^ 32) / 1000 in
  clapSec (to_ulong (t2 + d)) data = if secs >=? 1000 then -1 else secs.
Proof.
  intros Ht E secs.
  rewrite clapSec_elapsed by (rewrite E; exact Ht).
  rewrite E. unfold to_ulong.
  rewrite Zminus_mod_idemp_l.
  replace (t2 + d - t2) with d by lia.
  reflexivity.
Qed.

(** X15. A clap that the sound task records (microphone low, more than
    250 ms on the counter since [last_event]) at counter value t2 > 0 is
    reported d milliseconds later as the whole seconds of d, for d up to
    999999, and as -1 from then on until the 32-bit counter has gone round;
    in general the reply tells d modulo 2^32.  The readings of the sensor
    task are not touched. *)
Theorem clap_reported_later t1 t2 t3 d data last_event :
  0 < t2 -> 250 < to_ulong (t1 - last_event) -> 0 <= d ->
  let st := SoundTask_at true t1 t2 t3 (data, last_event) in
  let c := clapSec (to_ulong (t2 + d)) (fst st) in
  lastClapMs (fst st) = t2 /\ snd st = t3
  /\ temp (fst st) = temp data /\ hum (fst st) = hum data
  /\ photo (fst st) = photo data
  /\ c = (if (d mod 2 ^ 32) / 1000 >=? 1000 then -1 else (d mod 2 ^ 32) / 1000)
  /\ (d < 1000000 -> c = d / 1000)
  /\ (1000000 <= d < 2 ^ 32 -> c = -1).
Proof.
  intros Ht Hdeb Hd st c. subst c st.
  unfold SoundTask_at.
  destruct (Z.gtb_spec (to_ulong (t1 - last_event)) 250); [|lia].
  cbn [andb fst snd lastClapMs temp hum photo].
  repeat (split; [reflexivity|]).
  assert (E : forall dd, clapSec (to_ulong (t2 + dd))
                (mkData (temp data) (hum data) (photo data) t2)
              = if (dd mod 2 ^ 32) / 1000 >=? 1000 then -1
                else (dd mod 2 ^ 32) / 1000)
    by (intros dd; now apply clapSec_after).
  split; [apply E|]. split.
  - intros Hs. rewrite E.
    rewrite Z.mod_small by (change (2 ^ 32) with 4294967296; lia).
    destruct (Z.geb_spec (d / 1000) 1000) as [Hge|]; [|reflexivity].
    assert (d / 1000 < 1000) by (apply Z.div_lt_upper_bound; lia). lia.
  - intros Hs. rewrite E.
    rewrite Z.mod_small by lia.
    destruct (Z.geb_spec (d / 1000) 1000) as [|Hlt]; [reflexivity|].
    assert (1000 <= d / 1000) by (apply Z.div_le_lower_bound; lia). lia.
Qed.

Lemma clap_reported_later_witness :
  clapSec 400 (fst (SoundTask_at true 4294964000 4294964000 4294964001
                      (sample_data, 4294900000)))
  = 3.
Proof.
  assert (H2 : 0 < 4294964000) by lia.
  assert (H3 : 250 < to_ulong (4294964000 - 4294900000))
    by (vm_compute; reflexivity).
  assert (Hd : 0 <= 3696) by lia.
  destruct (clap_reported_later 4294964000 4294964000 4294964001 3696
              sample_data 4294900000 H2 H3 Hd)
    as (_ & _ & _ & _ & _ & _ & Hc & _).
  change 400 with (to_ulong (4294964000 + 3696)).
  rewrite Hc by lia. reflexivity.
Defined.

Lemma hub_step_no_nan st e :
  isnan (temp (fst st)) = false -> isnan (hum (fst st)) = false ->
  isnan (temp (fst (hub_step st e))) = false
  /\ isnan (hum (fst (hub_step st e))) = false.
Proof.
  intros Ht Hh. destruct e as [h t p | mic t1 t2 t3]; cbn [hub_step].
  - cbn [fst]. unfold SensorTask.
    destruct (isnan h) eqn:Eh, (isnan t) eqn:Et; cbn [negb andb temp hum];
      split; assumption.
  - destruct st as [data last_event]. unfold SoundTask_at.
    destruct (mic && (to_ulong (t1 - last_event) >? 250));
      cbn [fst temp hum] in *; split; assumption.
Qed.

(** X16. The shared temperature and humidity are never NaN: they start as
    0.0 and, whatever the sensor returns and however the turns of the two
    tasks follow each other, only numbers are stored. *)
Theorem shared_data_never_nan es :
  let st := hub_run es (data0, 0) in
  isnan (temp (fst st)) = false /\ isnan (hum (fst st)) = false.
Proof.
  cbv zeta. unfold hub_run.
  assert (H : isnan (temp (fst (data0, 0))) = false
              /\ isnan (hum (fst (data0, 0))) = false) by (split; reflexivity).
  revert H. generalize (data0, 0) as st.
  induction es as [|e es IH]; intros st [Ht Hh]; cbn [fold_left].
  - split; assumption.
  - apply IH. now apply hub_step_no_nan.
Qed.

Lemma clapSec_range now data :
  clapSec now data = -1 \/ 0 <= clapSec now data <= 999.
Proof.
  destruct (Z_lt_le_dec 0 (lastClapMs data)) as [Hpos|Hle].
  - rewrite clapSec_elapsed by assumption.
    set (secs := to_ulong (now - lastClapMs data) / 1000).
    assert (0 <= secs).
    { subst secs. unfold to_ulong. apply Z.div_pos; [|lia].
      apply Z.mod_pos_bound. reflexivity. }
    destruct (Z.geb_spec secs 1000); [left; reflexivity | right; lia].
  - left. unfold clapSec.
    destruct (Z.gtb_spec (lastClapMs data) 0); [lia | reflexivity].
Qed.

(** X17. The C field is -1 or a number from 0 to 999.  With a light level
    in the 12 bits of the converter and a temperature and a humidity that
    print in six characters at most, the reply has 30 characters at most:
    the frame holds it whole, never cut. *)
Theorem reply_never_cut fmt now data resp :
  0 <= photo data <= 4095 ->
  (length (fmt (temp data)) <= 6)%nat -> (length (fmt (hum data)) <= 6)%nat ->
  no_nul (fmt (temp data)) = true -> no_nul (fmt (hum data)) = true ->
  let c := clapSec now data in
  (c = -1 \/ 0 <= c <= 999)
  /\ (length (reply_text fmt data c) <= 30)%nat
  /\ text (fst (onI2CRequest fmt now data resp))
     = string_of_list_ascii (reply_text fmt data c).
Proof.
  intros Hp Lt Lh Nt Nh c.
  pose proof (clapSec_range now data) as Hc. fold c in Hc.
  assert (Lc : (length (dec c) <= 3)%nat).
  { destruct Hc as [->|Hc]; [cbn; lia|].
    apply (dec_length c 2). change (10 ^ Z.of_nat 3) with 1000. lia. }
  assert (Lp : (length (dec (photo data)) <= 4)%nat).
  { apply (dec_length _ 3). change (10 ^ Z.of_nat 4) with 10000. lia. }
  assert (Ll : (length (reply_text fmt data c) <= 30)%nat).
  { unfold reply_text. rewrite !length_app.
    change (length (lit "T=")) with 2%nat.
    change (length (lit " H=")) with 3%nat.
    change (length (lit " P=")) with 3%nat.
    change (length (lit " C=")) with 3%nat. lia. }
  split; [exact Hc|]. split; [exact Ll|].
  rewrite frame_spec. fold c.
  rewrite firstn_all2 by lia.
  apply padded_text; [|lia].
  unfold reply_text. rewrite !no_nul_app, Nt, Nh, !dec_no_nul. reflexivity.
Qed.

Lemma reply_never_cut_witness :
  text (fst (onI2CRequest print_f1 2000000 sample_data (repeat "x"%char 32)))
  = "T=23.5 H=45.0 P=1023 C=-1"%string.
Proof.
  destruct (reply_never_cut print_f1 2000000 sample_data (repeat "x"%char 32))
    as (_ & _ & Ht);
    [vm_compute; split; discriminate | vm_compute; lia | vm_compute; lia
    | reflexivity | reflexivity |].
  rewrite Ht. reflexivity.
Defined.

Lemma nth_error_padded t :
  (length t <= 31)%nat -> nth_error (padded t) 31 = Some NUL.
Proof.
  intros H. unfold padded, I2C_BUF.
  rewrite nth_error_app2 by lia.
  apply nth_error_repeat. lia.
Qed.

(** X18. The frame of the sensor hub owes nothing to what the response
    buffer held before: two reads of the same data at the same time give the
    same 32 bytes whatever the buffer was, and the last of the 32 bytes is
    always NUL. *)
Theorem reply_frame_fresh fmt now data resp resp' :
  fst (onI2CRequest fmt now data resp) = fst (onI2CRequest fmt now data resp')
  /\ nth_error (fst (onI2CRequest fmt now data resp)) 31 = Some NUL.
Proof.
  rewrite !frame_spec. split; [reflexivity|].
  apply nth_error_padded. rewrite length_firstn. lia.
Qed.

End SensorHubMore.
